(** * BloomFilter.py: a three-hash Bloom filter with one bit array per hash

    A shallow embedding of [src/BloomFilter.py] and the properties of its
    [add] / [check] contract.

    - Python integers are [Z]; [%] is the floored modulo, which is [Z.modulo]
      whenever the divisor is not zero, and raises [ZeroDivisionError] when
      it is.
    - Python [bytes] are [list byte]; a Python [str] is a Rocq [string]
      holding the text in UTF-8, so that [encode('utf-8')] lists its bytes.
    - Python lists are Rocq lists, read with stdpp's [!!] and written with
      [<[i:=v]>]; negative subscripts and [IndexError] are written out.
    - The object's attributes form a record; methods are computations in a
      state-and-exception monad over that record, because [add] mutates the
      bit arrays in place and may raise in the middle of its loop. *)

From Stdlib Require Import ZArith List Strings.String Strings.Ascii Strings.Byte Bool Lia.
From stdpp Require Import base list.
Import ListNotations.

Local Open Scope Z_scope.

(** ** 32-bit word arithmetic shared by the three digests *)

Module Word32.

Definition modulus : Z := 2 ^ 32.

Definition wrap (x : Z) : Z := x mod modulus.

Definition add (x y : Z) : Z := wrap (x + y).

Definition not (x : Z) : Z := Z.lxor x (modulus - 1).

Definition rotl (x n : Z) : Z :=
  wrap (Z.lor (Z.shiftl x n) (Z.shiftr x (32 - n))).

Definition rotr (x n : Z) : Z := rotl x (32 - n).

(** The four bytes of a word, most significant first. *)
Definition to_be (x : Z) : list Z :=
  [Z.shiftr x 24 mod 256; Z.shiftr x 16 mod 256; Z.shiftr x 8 mod 256; x mod 256].

Definition to_le (x : Z) : list Z := rev (to_be x).

Definition of_be (bs : list Z) : Z :=
  fold_left (fun acc b => acc * 256 + b) bs 0.

Definition of_le (bs : list Z) : Z := of_be (rev bs).

(** Cut a block of bytes into words of four bytes. *)
Fixpoint words (of_bytes : list Z -> Z) (n : nat) (bs : list Z) : list Z :=
  match n with
  | O => []
  | S n' => of_bytes (firstn 4 bs) :: words of_bytes n' (skipn 4 bs)
  end.

(** The 64-bit message length, most significant byte first. *)
Definition len64_be (bits : Z) : list Z :=
  to_be (Z.shiftr bits 32 mod modulus) ++ to_be (bits mod modulus).

(** Merkle-Damgard padding: a 1 bit, zeros up to 56 mod 64, the length. *)
Definition pad (little_endian : bool) (msg : list Z) : list Z :=
  let len := Z.of_nat (length msg) in
  let zeros := Z.to_nat ((55 - len) mod 64) in
  let tail := len64_be (8 * len) in
  msg ++ [128] ++ repeat 0 zeros ++ (if little_endian then rev tail else tail).

(** The 64-byte blocks of a padded message. *)
Definition blocks (padded : list Z) : list (list Z) :=
  map (fun i => firstn 64 (skipn (64 * i) padded))
      (seq 0 (length padded / 64)).

Definition byte_to_Z (b : byte) : Z := Z.of_N (Byte.to_N b).

Definition byte_of_Z (z : Z) : byte :=
  byte_of_ascii (ascii_of_N (Z.to_N (z mod 256))).

End Word32.

(** ** Hexadecimal digits *)

Module Hex.

(** The lowercase digit of a value below 16. *)
Definition hex_digit (n : Z) : ascii :=
  if n <? 10 then ascii_of_N (Z.to_N (48 + n)) else ascii_of_N (Z.to_N (87 + n)).

(** The value of a digit, in either case; [None] for any other character. *)
Definition hex_value (c : ascii) : option Z :=
  let n := Z.of_N (N_of_ascii c) in
  if (48 <=? n) && (n <=? 57) then Some (n - 48)
  else if (97 <=? n) && (n <=? 102) then Some (n - 87)
  else if (65 <=? n) && (n <=? 70) then Some (n - 55)
  else None.

End Hex.

(** ** hashlib: MD5 (RFC 1321), SHA-1 and SHA-256 (FIPS 180-4)

    [hashlib] is not part of the repository; the three digests are the
    published algorithms, checked below against their standard test
    vectors. *)

Module hashlib.
Import Word32 Hex.

(** A hash object holds the finished digest. *)
Definition hash_object := list byte.

(** [h.hexdigest()]: two lowercase hexadecimal digits per byte. *)
Fixpoint hexdigest (h : hash_object) : string :=
  match h with
  | [] => EmptyString
  | b :: h' =>
      let n := byte_to_Z b in
      String (hex_digit (n / 16)) (String (hex_digit (n mod 16)) (hexdigest h'))
  end.

(** Tables are written as hexadecimal words separated by blanks. *)
Fixpoint table_aux (cur : option Z) (s : string) : list Z :=
  match s with
  | EmptyString => match cur with Some w => [w] | None => [] end
  | String c s' =>
      match hex_value c with
      | Some d => table_aux (Some (16 * default 0 cur + d)) s'
      | None => match cur with
                | Some w => w :: table_aux None s'
                | None => table_aux None s'
                end
      end
  end.

Definition table (s : string) : list Z := table_aux None s.

Module MD5.

Definition K : list Z := Eval vm_compute in table
  "d76aa478 e8c7b756 242070db c1bdceee f57c0faf 4787c62a
   a8304613 fd469501 698098d8 8b44f7af ffff5bb1 895cd7be
   6b901122 fd987193 a679438e 49b40821 f61e2562 c040b340
   265e5a51 e9b6c7aa d62f105d 02441453 d8a1e681 e7d3fbc8
   21e1cde6 c33707d6 f4d50d87 455a14ed a9e3e905 fcefa3f8
   676f02d9 8d2a4c8a fffa3942 8771f681 6d9d6122 fde5380c
   a4beea44 4bdecfa9 f6bb4b60 bebfbc70 289b7ec6 eaa127fa
   d4ef3085 04881d05 d9d4d039 e6db99e5 1fa27cf8 c4ac5665
   f4292244 432aff97 ab9423a7 fc93a039 655b59c3 8f0ccc92
   ffeff47d 85845dd1 6fa87e4f fe2ce6e0 a3014314 4e0811a1
   f7537e82 bd3af235 2ad7d2bb eb86d391".

Definition shifts : list Z :=
  concat (map (fun r => r ++ r ++ r ++ r)
              [[7; 12; 17; 22]; [5; 9; 14; 20]; [4; 11; 16; 23]; [6; 10; 15; 21]]).

Definition init : Z * Z * Z * Z :=
  (0x67452301, 0xefcdab89, 0x98badcfe, 0x10325476).

Definition round (M : list Z) (st : Z * Z * Z * Z) (i : nat) : Z * Z * Z * Z :=
  let '(A, B, C, D) := st in
  let zi := Z.of_nat i in
  let '(F, g) :=
    if zi <? 16 then (Z.lor (Z.land B C) (Z.land (not B) D), zi)
    else if zi <? 32 then (Z.lor (Z.land D B) (Z.land (not D) C), (5 * zi + 1) mod 16)
    else if zi <? 48 then (Z.lxor (Z.lxor B C) D, (3 * zi + 5) mod 16)
    else (Z.lxor C (Z.lor B (not D)), (7 * zi) mod 16) in
  let F' := add (add (add F A) (nth i K 0)) (nth (Z.to_nat g) M 0) in
  (D, add B (rotl F' (nth i shifts 0)), B, C).

Definition compress (st : Z * Z * Z * Z) (block : list Z) : Z * Z * Z * Z :=
  let M := words of_le 16 block in
  let '(a0, b0, c0, d0) := st in
  let '(A, B, C, D) := fold_left (round M) (seq 0 64) st in
  (add a0 A, add b0 B, add c0 C, add d0 D).

Definition digest (msg : list byte) : hash_object :=
  let '(a, b, c, d) :=
    fold_left compress (blocks (pad true (map byte_to_Z msg))) init in
  map byte_of_Z (to_le a ++ to_le b ++ to_le c ++ to_le d).

End MD5.

Module SHA1.

Definition init : Z * Z * Z * Z * Z :=
  (0x67452301, 0xefcdab89, 0x98badcfe, 0x10325476, 0xc3d2e1f0).

Fixpoint schedule (n : nat) (w : list Z) : list Z :=
  match n with
  | O => w
  | S n' =>
      let i := length w in
      let x := Z.lxor (Z.lxor (nth (i - 3) w 0) (nth (i - 8) w 0))
                      (Z.lxor (nth (i - 14) w 0) (nth (i - 16) w 0)) in
      schedule n' (w ++ [rotl x 1])
  end.

Definition round (w : list Z) (st : Z * Z * Z * Z * Z) (i : nat)
  : Z * Z * Z * Z * Z :=
  let '(a, b, c, d, e) := st in
  let zi := Z.of_nat i in
  let '(f, k) :=
    if zi <? 20 then (Z.lor (Z.land b c) (Z.land (not b) d), 0x5a827999)
    else if zi <? 40 then (Z.lxor (Z.lxor b c) d, 0x6ed9eba1)
    else if zi <? 60 then
      (Z.lor (Z.lor (Z.land b c) (Z.land b d)) (Z.land c d), 0x8f1bbcdc)
    else (Z.lxor (Z.lxor b c) d, 0xca62c1d6) in
  let temp := add (add (add (add (rotl a 5) f) e) k) (nth i w 0) in
  (temp, a, rotl b 30, c, d).

Definition compress (st : Z * Z * Z * Z * Z) (block : list Z)
  : Z * Z * Z * Z * Z :=
  let w := schedule 64 (words of_be 16 block) in
  let '(h0, h1, h2, h3, h4) := st in
  let '(a, b, c, d, e) := fold_left (round w) (seq 0 80) st in
  (add h0 a, add h1 b, add h2 c, add h3 d, add h4 e).

Definition digest (msg : list byte) : hash_object :=
  let '(h0, h1, h2, h3, h4) :=
    fold_left compress (blocks (pad false (map byte_to_Z msg))) init in
  map byte_of_Z (to_be h0 ++ to_be h1 ++ to_be h2 ++ to_be h3 ++ to_be h4).

End SHA1.

Module SHA256.

Definition is_prime (p : nat) : bool :=
  forallb (fun d => negb (Nat.eqb (p mod d) 0)) (seq 2 (p - 2)).

Definition primes : list Z :=
  Eval vm_compute in
    map Z.of_nat (filter (fun p => is_prime p) (seq 2 310)).

(** Integer cube root, one bit at a time from bit [n - 1] down. *)
Fixpoint cbrt_bits (n : nat) (x r : Z) : Z :=
  match n with
  | O => r
  | S n' =>
      let r' := r + 2 ^ Z.of_nat n' in
      cbrt_bits n' x (if r' * r' * r' <=? x then r' else r)
  end.

(** The first 32 bits of the fractional part of the cube root. *)
Definition K : list Z :=
  Eval vm_compute in
    map (fun p => wrap (cbrt_bits 40 (p * 2 ^ 96) 0)) primes.

(** The first 32 bits of the fractional part of the square root. *)
Definition init : list Z :=
  Eval vm_compute in
    map (fun p => wrap (Z.sqrt (p * 2 ^ 64))) (firstn 8 primes).

Definition ssig0 (x : Z) : Z :=
  Z.lxor (Z.lxor (rotr x 7) (rotr x 18)) (Z.shiftr x 3).
Definition ssig1 (x : Z) : Z :=
  Z.lxor (Z.lxor (rotr x 17) (rotr x 19)) (Z.shiftr x 10).
Definition bsig0 (x : Z) : Z :=
  Z.lxor (Z.lxor (rotr x 2) (rotr x 13)) (rotr x 22).
Definition bsig1 (x : Z) : Z :=
  Z.lxor (Z.lxor (rotr x 6) (rotr x 11)) (rotr x 25).

Fixpoint schedule (n : nat) (w : list Z) : list Z :=
  match n with
  | O => w
  | S n' =>
      let i := length w in
      let x := add (add (ssig1 (nth (i - 2) w 0)) (nth (i - 7) w 0))
                   (add (ssig0 (nth (i - 15) w 0)) (nth (i - 16) w 0)) in
      schedule n' (w ++ [x])
  end.

Definition round (w : list Z) (st : list Z) (i : nat) : list Z :=
  match st with
  | [a; b; c; d; e; f; g; h] =>
      let ch := Z.lxor (Z.land e f) (Z.land (not e) g) in
      let maj := Z.lxor (Z.lxor (Z.land a b) (Z.land a c)) (Z.land b c) in
      let t1 := add (add (add (add h (bsig1 e)) ch) (nth i K 0)) (nth i w 0) in
      let t2 := add (bsig0 a) maj in
      [add t1 t2; a; b; c; add d t1; e; f; g]
  | _ => st
  end.

Definition compress (st : list Z) (block : list Z) : list Z :=
  let w := schedule 48 (words of_be 16 block) in
  map (fun p => add (fst p) (snd p))
      (combine st (fold_left (round w) (seq 0 64) st)).

Definition digest (msg : list byte) : hash_object :=
  map byte_of_Z
      (concat (map to_be
         (fold_left compress (blocks (pad false (map byte_to_Z msg))) init))).

End SHA256.

Definition md5 : list byte -> hash_object := MD5.digest.
Definition sha1 : list byte -> hash_object := SHA1.digest.
Definition sha256 : list byte -> hash_object := SHA256.digest.

End hashlib.

Local Open Scope string_scope.
Local Open Scope Z_scope.

(** ** The Python values and built-ins the program uses *)

Inductive exn : Type :=
| ZeroDivisionError
| IndexError
| ValueError.

Inductive result (A : Type) : Type :=
| Ok (a : A)
| Raise (e : exn).
Arguments Ok {A} a.
Arguments Raise {A} e.

(** The values handed to [add] and [check]: anything with a string form.
    Strings, booleans and [None] stand for them. *)
Inductive item : Type :=
| PyStr (s : string)
| PyBool (b : bool)
| PyNone.

Module Py.

(** [str(x)] *)
Definition str (x : item) : string :=
  match x with
  | PyStr s => s
  | PyBool true => "True"
  | PyBool false => "False"
  | PyNone => "None"
  end.

(** [s.encode('utf-8')] *)
Definition encode_utf8 (s : string) : list byte := list_byte_of_string s.

(** [int(s, 16)] on a string of hexadecimal digits, the form that
    [hexdigest()] produces; the empty string is a [ValueError]. The signs,
    prefixes, blanks and underscores that [int] also accepts are left out
    and count as errors here. *)
Fixpoint int16_digits (acc : Z) (s : string) : result Z :=
  match s with
  | EmptyString => Ok acc
  | String c s' =>
      match Hex.hex_value c with
      | Some d => int16_digits (16 * acc + d) s'
      | None => Raise ValueError
      end
  end.

Definition int16 (s : string) : result Z :=
  match s with
  | EmptyString => Raise ValueError
  | _ => int16_digits 0 s
  end.

(** [a % b] *)
Definition mod_ (a b : Z) : result Z :=
  if b =? 0 then Raise ZeroDivisionError else Ok (a mod b).

(** [[x] * n], for a count that the interpreter can index and allocate:
    no element when [n] is zero or negative. The [OverflowError] of a count
    that does not fit an index and the [MemoryError] of a list too large to
    allocate are left out. *)
Definition list_repeat {A} (x : A) (n : Z) : list A := replicate (Z.to_nat n) x.

(** [range(n)] *)
Definition range (n : nat) : list Z := map Z.of_nat (seq 0 n).

(** [enumerate(l)] *)
Definition enumerate {A} (l : list A) : list (Z * A) :=
  combine (range (length l)) l.

(** The position a subscript [i] denotes in a list of length [n]:
    negative subscripts count from the end, anything outside
    [-n .. n-1] is out of range. *)
Definition subscript (n : nat) (i : Z) : option nat :=
  if 0 <=? i then
    if i <? Z.of_nat n then Some (Z.to_nat i) else None
  else
    if 0 <=? i + Z.of_nat n then Some (Z.to_nat (i + Z.of_nat n)) else None.

(** [l[i]] *)
Definition getitem {A} (l : list A) (i : Z) : result A :=
  match subscript (length l) i with
  | Some k => match l !! k with Some x => Ok x | None => Raise IndexError end
  | None => Raise IndexError
  end.

(** [l[i] = v] *)
Definition setitem {A} (l : list A) (i : Z) (v : A) : result (list A) :=
  match subscript (length l) i with
  | Some k => Ok (<[k:=v]> l)
  | None => Raise IndexError
  end.

End Py.

(** ** The class *)

Record BloomFilter : Type := {
  size : Z;
  bit_arrays : list (list Z)
}.

(** A method body: it runs on [self], may change it, and returns or raises. *)
Definition M (A : Type) : Type := BloomFilter -> BloomFilter * result A.

Definition ret {A} (a : A) : M A := fun self => (self, Ok a).

Definition bind {A B} (c : M A) (k : A -> M B) : M B :=
  fun self =>
    match c self with
    | (self', Ok a) => k a self'
    | (self', Raise e) => (self', Raise e)
    end.

Definition lift {A} (r : result A) : M A := fun self => (self, r).

Definition attr {A} (field : BloomFilter -> A) : M A := fun self => (self, Ok (field self)).

Notation "x <- c ;; k" := (bind c (fun x => k))
  (at level 100, c at next level, right associativity).
Notation "c ;;; k" := (bind c (fun _ => k))
  (at level 100, k at level 200, right associativity).

(** [BloomFilter(size)]; [size] defaults to 100. The comprehension builds
    a fresh row on each of its three turns, so the rows share nothing. *)
Definition __init__ (size : option Z) : result BloomFilter :=
  let size := default 100 size in
  Ok {| size := size;
        bit_arrays := map (fun _ => Py.list_repeat 0 size) (Py.range 3) |}.

Definition _hashes (x : item) : M (list Z) :=
  let item_str := Py.encode_utf8 (Py.str x) in
  d1 <- lift (Py.int16 (hashlib.hexdigest (hashlib.md5 item_str))) ;;
  n1 <- attr size ;;
  hash1 <- lift (Py.mod_ d1 n1) ;;
  d2 <- lift (Py.int16 (hashlib.hexdigest (hashlib.sha1 item_str))) ;;
  n2 <- attr size ;;
  hash2 <- lift (Py.mod_ d2 n2) ;;
  d3 <- lift (Py.int16 (hashlib.hexdigest (hashlib.sha256 item_str))) ;;
  n3 <- attr size ;;
  hash3 <- lift (Py.mod_ d3 n3) ;;
  ret [hash1; hash2; hash3].

(** [self.bit_arrays[index][hash_val] = v]: the row found at [index] is
    updated where it stands. *)
Definition store_bit (index hash_val v : Z) : M unit :=
  fun self =>
    let rows := bit_arrays self in
    match Py.subscript (length rows) index with
    | Some i =>
        match rows !! i with
        | Some row =>
            match Py.setitem row hash_val v with
            | Ok row' =>
                ({| size := size self; bit_arrays := <[i:=row']> rows |}, Ok tt)
            | Raise e => (self, Raise e)
            end
        | None => (self, Raise IndexError)
        end
    | None => (self, Raise IndexError)
    end.

(** [self.bit_arrays[index][hash_val]] *)
Definition load_bit (index hash_val : Z) : M Z :=
  rows <- attr bit_arrays ;;
  row <- lift (Py.getitem rows index) ;;
  lift (Py.getitem row hash_val).

(** The loop of [add] over the enumerated hash values. *)
Fixpoint add_loop (ps : list (Z * Z)) : M unit :=
  match ps with
  | [] => ret tt
  | (index, hash_val) :: ps' =>
      store_bit index hash_val 1 ;;;
      add_loop ps'
  end.

Definition add (x : item) : M unit :=
  hs <- _hashes x ;;
  add_loop (Py.enumerate hs).

(** The loop of [check]: the first cleared bit ends it with [False]. *)
Fixpoint check_loop (ps : list (Z * Z)) : M bool :=
  match ps with
  | [] => ret true
  | (index, hash_val) :: ps' =>
      b <- load_bit index hash_val ;;
      if b =? 0 then ret false else check_loop ps'
  end.

Definition check (x : item) : M bool :=
  hs <- _hashes x ;;
  check_loop (Py.enumerate hs).

(** A run of [add] calls, one item after the other; an exception ends it. *)
Fixpoint add_all (xs : list item) : M unit :=
  match xs with
  | [] => ret tt
  | x :: xs' => add x ;;; add_all xs'
  end.

(** The statements at the end of the file: what the three [print]s show. *)
Definition script : result (list bool) :=
  match __init__ (Some 50) with
  | Raise e => Raise e
  | Ok bf =>
      snd ((add (PyStr "google") ;;;
            add (PyStr "openai") ;;;
            b1 <- check (PyStr "google") ;;
            b2 <- check (PyStr "openai") ;;
            b3 <- check (PyStr "microsoft") ;;
            ret [b1; b2; b3]) bf)
  end.

(** [bf = BloomFilter(size=50)], the filter the file builds. *)
Definition bf : BloomFilter :=
  {| size := 50; bit_arrays := replicate 3 (replicate 50 0) |}.

(** ** Views of the state in which the properties are stated *)

(** A digest read as an unsigned integer, most significant byte first:
    the value of [int(h.hexdigest(), 16)]. *)
Definition int_of_digest (h : hashlib.hash_object) : Z :=
  fold_left (fun acc b => 256 * acc + Word32.byte_to_Z b) h 0.

(** The three integers [_hashes] reduces, in the order md5, sha1, sha256. *)
Definition hash_ints (x : item) : list Z :=
  let item_str := Py.encode_utf8 (Py.str x) in
  [int_of_digest (hashlib.md5 item_str);
   int_of_digest (hashlib.sha1 item_str);
   int_of_digest (hashlib.sha256 item_str)].

(** The lengths of the bit arrays. *)
Definition shape (f : BloomFilter) : list nat := map length (bit_arrays f).

(** The content of cell [j] of bit array [i], if there is one. *)
Definition cell (f : BloomFilter) (i j : nat) : option Z :=
  match bit_arrays f !! i with
  | Some row => row !! j
  | None => None
  end.

(** The cell that [self.bit_arrays[index][hash_val]] denotes. *)
Definition locate (f : BloomFilter) (index hash_val : Z) : option (nat * nat) :=
  match Py.subscript (length (bit_arrays f)) index with
  | Some i =>
      match bit_arrays f !! i with
      | Some row =>
          match Py.subscript (length row) hash_val with
          | Some j => Some (i, j)
          | None => None
          end
      | None => None
      end
  | None => None
  end.

(** The filter after the bit at cell [(i, j)] is written. *)
Definition with_bit (f : BloomFilter) (i j : nat) (v : Z) : BloomFilter :=
  {| size := size f;
     bit_arrays := alter (fun row => <[j:=v]> row) i (bit_arrays f) |}.

(** [f'] has the size and the array lengths of [f], and each of its cells
    is as in [f] or holds 1. *)
Definition grows (f f' : BloomFilter) : Prop :=
  size f' = size f
  /\ shape f' = shape f
  /\ forall i j, cell f' i j = cell f i j \/ cell f' i j = Some 1.

(** The bit that [self.bit_arrays[index][hash_val]] reads, for a pair
    [(index, hash_val)], is there and is not 0. *)
Definition reads_set (f : BloomFilter) (p : Z * Z) : Prop :=
  exists v, load_bit (fst p) (snd p) f = (f, Ok v) /\ v <> 0.

(** What the constructor establishes for a positive size and [add]
    maintains: three bit arrays of [size] cells each. *)
Definition well_formed (f : BloomFilter) : Prop :=
  1 <= size f /\ shape f = replicate 3 (Z.to_nat (size f)).

(** ** Further views, for the behaviour of whole runs *)

(** The hash positions of [x] in a filter of size [n], one per bit array. *)
Definition positions (n : Z) (x : item) : list Z :=
  map (fun d => d mod n) (hash_ints x).

(** A filter as the constructor leaves it for size [n]. *)
Definition fresh (n : Z) : BloomFilter :=
  {| size := n; bit_arrays := replicate 3 (replicate (Z.to_nat n) 0) |}.

(** The cells that the loop of [add] writes: it goes through the pairs in
    order and stops at the first subscript that is out of range. *)
Fixpoint marks (f : BloomFilter) (ps : list (Z * Z)) : list (nat * nat) :=
  match ps with
  | [] => []
  | (index, hash_val) :: ps' =>
      match locate f index hash_val with
      | Some c => c :: marks f ps'
      | None => []
      end
  end.

(** The cells that [add x] writes in [f]: none when [size] is 0, since
    [_hashes] raises before the loop starts. *)
Definition add_marks (f : BloomFilter) (x : item) : list (nat * nat) :=
  if size f =? 0 then [] else marks f (Py.enumerate (positions (size f) x)).

(** Every cell holds 0 or 1. *)
Definition binary (f : BloomFilter) : Prop :=
  forall i j v, cell f i j = Some v -> v = 0 \/ v = 1.

(** The number of cells of a bit array that hold 1. *)
Definition ones (row : list Z) : nat :=
  length (List.filter (fun v => v =? 1) row).

(** ** The digests: test vectors, sizes, and their reading as integers *)

Section Digests.
Import hashlib Word32 Hex.


Example md5_abc :
  hexdigest (md5 (list_byte_of_string "abc")) = "900150983cd24fb0d6963f7d28e17f72".
Proof. vm_compute. reflexivity. Qed.

Example md5_empty :
  hexdigest (md5 []) = "d41d8cd98f00b204e9800998ecf8427e".
Proof. vm_compute. reflexivity. Qed.

Example sha1_abc :
  hexdigest (sha1 (list_byte_of_string "abc"))
  = "a9993e364706816aba3e25717850c26c9cd0d89d".
Proof. vm_compute. reflexivity. Qed.

Example sha1_empty :
  hexdigest (sha1 []) = "da39a3ee5e6b4b0d3255bfef95601890afd80709".
Proof. vm_compute. reflexivity. Qed.

Example sha256_abc :
  hexdigest (sha256 (list_byte_of_string "abc"))
  = "ba7816bf8f01cfea414140de5dae2223b00361a396177a9cb410ff61f20015ad".
Proof. vm_compute. reflexivity. Qed.

Example sha256_empty :
  hexdigest (sha256 [])
  = "e3b0c44298fc1c149afbf4c8996fb92427ae41e4649b934ca495991b7852b855".
Proof. vm_compute. reflexivity. Qed.

(** A message of 95 bytes: two blocks for each digest. *)
Example md5_two_blocks :
  hexdigest (md5 (list_byte_of_string
    "The quick brown fox jumps over the lazy dog, and then the quick brown fox jumps over it again."))
  = "30ead8930eea8eea9daaac20888ef2ad".
Proof. vm_compute. reflexivity. Qed.

Example sha1_two_blocks :
  hexdigest (sha1 (list_byte_of_string
    "The quick brown fox jumps over the lazy dog, and then the quick brown fox jumps over it again."))
  = "be7417fd76759bfdd2e0a8965310d7f786f3322f".
Proof. vm_compute. reflexivity. Qed.

Example sha256_two_blocks :
  hexdigest (sha256 (list_byte_of_string
    "The quick brown fox jumps over the lazy dog, and then the quick brown fox jumps over it again."))
  = "6aeacf235d9d2ce9f3d2e0ef23ba152148bac8a89c403d208cd0418f254cbd21".
Proof. vm_compute. reflexivity. Qed.

Lemma md5_digest_size (msg : list byte) : length (md5 msg) = 16%nat.
Proof.
  unfold md5, MD5.digest.
  destruct (fold_left MD5.compress _ MD5.init) as [[[a b] c] d].
  reflexivity.
Qed.

Lemma sha1_digest_size (msg : list byte) : length (sha1 msg) = 20%nat.
Proof.
  unfold sha1, SHA1.digest.
  destruct (fold_left SHA1.compress _ SHA1.init) as [[[[h0 h1] h2] h3] h4].
  reflexivity.
Qed.

Lemma sha256_round_length (w st : list Z) (i : nat) :
  length (SHA256.round w st i) = length st.
Proof.
  unfold SHA256.round.
  do 9 (destruct st as [|? st]; [reflexivity|]); reflexivity.
Qed.

Lemma sha256_rounds_length (w : list Z) (ix : list nat) (st : list Z) :
  length (fold_left (SHA256.round w) ix st) = length st.
Proof.
  revert st; induction ix as [|i ix IH]; intros st; [reflexivity|].
  cbn [fold_left]. rewrite IH. apply sha256_round_length.
Qed.

Lemma sha256_compress_length (st block : list Z) :
  length (SHA256.compress st block) = length st.
Proof.
  unfold SHA256.compress.
  rewrite length_map, length_combine, sha256_rounds_length. lia.
Qed.

Lemma sha256_state_length (bs : list (list Z)) (st : list Z) :
  length (fold_left SHA256.compress bs st) = length st.
Proof.
  revert st; induction bs as [|b bs IH]; intros st; [reflexivity|].
  cbn [fold_left]. rewrite IH. apply sha256_compress_length.
Qed.

Lemma to_be_words_length (ws : list Z) :
  length (concat (map to_be ws)) = (4 * length ws)%nat.
Proof.
  induction ws as [|w ws IH]; [reflexivity|].
  cbn [map concat]. rewrite length_app, IH. cbn [to_be length]. lia.
Qed.

Lemma sha256_digest_size (msg : list byte) : length (sha256 msg) = 32%nat.
Proof.
  unfold sha256, SHA256.digest.
  rewrite length_map, to_be_words_length, sha256_state_length.
  reflexivity.
Qed.

Lemma byte_to_Z_split (b : byte) :
  hex_value (hex_digit (byte_to_Z b / 16)) = Some (byte_to_Z b / 16)
  /\ hex_value (hex_digit (byte_to_Z b mod 16)) = Some (byte_to_Z b mod 16)
  /\ 0 <= byte_to_Z b.
Proof. destruct b; vm_compute; repeat split; discriminate. Qed.

Lemma int16_digits_hexdigest (h : hash_object) (acc : Z) :
  Py.int16_digits acc (hexdigest h)
  = Ok (fold_left (fun acc b => 256 * acc + byte_to_Z b) h acc).
Proof.
  revert acc; induction h as [|b h IH]; intros acc; [reflexivity|].
  destruct (byte_to_Z_split b) as (Hhi & Hlo & _).
  cbn [hexdigest Py.int16_digits fold_left].
  rewrite Hhi, Hlo, IH. do 2 f_equal.
  pose proof (Z.div_mod (byte_to_Z b) 16). lia.
Qed.

(** [int(h.hexdigest(), 16)] never raises on a digest of at least one
    byte, and reads it as [int_of_digest]. *)
Lemma int16_hexdigest (h : hash_object) :
  h <> [] -> Py.int16 (hexdigest h) = Ok (int_of_digest h).
Proof.
  intros Hne. destruct h as [|b h]; [congruence|].
  unfold Py.int16, int_of_digest.
  rewrite <- int16_digits_hexdigest. reflexivity.
Qed.

Lemma int_of_digest_nonneg (h : hash_object) : 0 <= int_of_digest h.
Proof.
  unfold int_of_digest.
  assert (forall a, 0 <= a ->
            0 <= fold_left (fun acc b => 256 * acc + byte_to_Z b) h a) as H.
  { induction h as [|b h IH]; intros a Ha; [exact Ha|].
    cbn [fold_left]. apply IH.
    destruct (byte_to_Z_split b) as (_ & _ & Hb). lia. }
  apply H. lia.
Qed.

Lemma md5_int (msg : list byte) :
  Py.int16 (hexdigest (md5 msg)) = Ok (int_of_digest (md5 msg)).
Proof.
  apply int16_hexdigest. intros E.
  pose proof (md5_digest_size msg) as L. rewrite E in L. discriminate.
Qed.

Lemma sha1_int (msg : list byte) :
  Py.int16 (hexdigest (sha1 msg)) = Ok (int_of_digest (sha1 msg)).
Proof.
  apply int16_hexdigest. intros E.
  pose proof (sha1_digest_size msg) as L. rewrite E in L. discriminate.
Qed.

Lemma sha256_int (msg : list byte) :
  Py.int16 (hexdigest (sha256 msg)) = Ok (int_of_digest (sha256 msg)).
Proof.
  apply int16_hexdigest. intros E.
  pose proof (sha256_digest_size msg) as L. rewrite E in L. discriminate.
Qed.

End Digests.


(** The file's own run: [True], [True], [False], as its comments say. *)
Example script_prints : script = Ok [true; true; false].
Proof. vm_compute. reflexivity. Qed.

(** ** [_hashes] *)

Section Hashes.
Variable x : item.
Variable f : BloomFilter.

Lemma hashes_nonzero :
  size f <> 0 ->
  _hashes x f = (f, Ok (map (fun d => d mod size f) (hash_ints x))).
Proof.
  intros Hn. apply Z.eqb_neq in Hn.
  unfold _hashes, hash_ints, bind, lift, attr, ret, Py.mod_.
  rewrite md5_int, sha1_int, sha256_int, Hn. reflexivity.
Qed.

Lemma hashes_zero :
  size f = 0 -> _hashes x f = (f, Raise ZeroDivisionError).
Proof.
  intros Hz. unfold _hashes, bind, lift, attr, ret, Py.mod_.
  rewrite md5_int, Hz. reflexivity.
Qed.

Lemma hashes_state : fst (_hashes x f) = f.
Proof.
  destruct (Z.eq_dec (size f) 0) as [Hz|Hn].
  - rewrite hashes_zero by exact Hz. reflexivity.
  - rewrite hashes_nonzero by exact Hn. reflexivity.
Qed.

End Hashes.

Lemma hash_ints_nonneg (x : item) : Forall (fun d => 0 <= d) (hash_ints x).
Proof.
  unfold hash_ints. repeat constructor; apply int_of_digest_nonneg.
Qed.

Lemma hashes_same_size (x : item) (f g : BloomFilter) :
  size g = size f -> snd (_hashes x g) = snd (_hashes x f).
Proof.
  intros E. destruct (Z.eq_dec (size f) 0) as [Hz|Hn].
  - rewrite !hashes_zero by congruence. reflexivity.
  - rewrite !hashes_nonzero by congruence. cbn [snd]. rewrite E. reflexivity.
Qed.

(** ** Subscripts *)

Lemma subscript_lt (n : nat) (i : Z) (k : nat) :
  Py.subscript n i = Some k -> (k < n)%nat.
Proof.
  unfold Py.subscript. intros H.
  destruct (Z.leb_spec 0 i).
  - destruct (Z.ltb_spec i (Z.of_nat n)); [|discriminate].
    injection H as <-. lia.
  - destruct (Z.leb_spec 0 (i + Z.of_nat n)); [|discriminate].
    injection H as <-. lia.
Qed.

Lemma subscript_nonneg (n : nat) (i : Z) (k : nat) :
  0 <= i -> Py.subscript n i = Some k -> k = Z.to_nat i.
Proof.
  unfold Py.subscript. intros Hi H.
  destruct (Z.leb_spec 0 i); [|lia].
  destruct (Z.ltb_spec i (Z.of_nat n)); [|discriminate].
  injection H as <-. reflexivity.
Qed.

Lemma subscript_in_range (n : nat) (i : Z) :
  0 <= i < Z.of_nat n -> Py.subscript n i = Some (Z.to_nat i).
Proof.
  unfold Py.subscript. intros Hi.
  destruct (Z.leb_spec 0 i); [|lia].
  destruct (Z.ltb_spec i (Z.of_nat n)); [reflexivity|lia].
Qed.

(** ** Reading and writing one bit *)

Lemma shape_lookup (f : BloomFilter) (i : nat) :
  shape f !! i = length <$> (bit_arrays f !! i).
Proof. unfold shape. apply (list_lookup_fmap length). Qed.

Lemma shape_length (f : BloomFilter) : length (shape f) = length (bit_arrays f).
Proof. unfold shape. apply length_map. Qed.

(** Which cell a subscript pair denotes depends on the array lengths only. *)
Lemma locate_shape (f g : BloomFilter) (index hash_val : Z) :
  shape g = shape f -> locate g index hash_val = locate f index hash_val.
Proof.
  intros E. unfold locate.
  rewrite <- !shape_length, E.
  destruct (Py.subscript (length (shape f)) index) as [i|]; [|reflexivity].
  pose proof (shape_lookup f i) as Hf. pose proof (shape_lookup g i) as Hg.
  rewrite E in Hg. rewrite Hf in Hg.
  destruct (bit_arrays f !! i) as [row|], (bit_arrays g !! i) as [row'|];
    cbn in Hg; try discriminate; [|reflexivity].
  injection Hg as ->. reflexivity.
Qed.

Lemma locate_nonneg (f : BloomFilter) (index hash_val : Z) (i j : nat) :
  0 <= index -> 0 <= hash_val ->
  locate f index hash_val = Some (i, j) ->
  i = Z.to_nat index /\ j = Z.to_nat hash_val.
Proof.
  unfold locate. intros Hi Hh H.
  destruct (Py.subscript _ index) as [i'|] eqn:Ei; [|discriminate].
  destruct (bit_arrays f !! i') as [row|]; [|discriminate].
  destruct (Py.subscript _ hash_val) as [j'|] eqn:Ej; [|discriminate].
  injection H as <- <-.
  split; eapply subscript_nonneg; eassumption.
Qed.

Lemma locate_cell (f : BloomFilter) (index hash_val : Z) (i j : nat) :
  locate f index hash_val = Some (i, j) -> is_Some (cell f i j).
Proof.
  unfold locate, cell. intros H.
  destruct (Py.subscript _ index) as [i'|]; [|discriminate].
  destruct (bit_arrays f !! i') as [row|] eqn:Er; [|discriminate].
  destruct (Py.subscript _ hash_val) as [j'|] eqn:Ej; [|discriminate].
  injection H as <- <-. rewrite Er.
  apply lookup_lt_is_Some. eapply subscript_lt; eassumption.
Qed.

Lemma load_bit_locate (f : BloomFilter) (index hash_val : Z) :
  load_bit index hash_val f
  = (f, match locate f index hash_val with
        | Some (i, j) =>
            match cell f i j with Some v => Ok v | None => Raise IndexError end
        | None => Raise IndexError
        end).
Proof.
  unfold load_bit, bind, attr, lift, Py.getitem, locate, cell.
  destruct (Py.subscript _ index) as [i|]; [|reflexivity].
  destruct (bit_arrays f !! i) as [row|] eqn:Er; [|reflexivity].
  destruct (Py.subscript _ hash_val) as [j|]; [|reflexivity].
  rewrite Er. destruct (row !! j); reflexivity.
Qed.

Lemma store_bit_locate (f : BloomFilter) (index hash_val v : Z) :
  store_bit index hash_val v f
  = match locate f index hash_val with
    | Some (i, j) => (with_bit f i j v, Ok tt)
    | None => (f, Raise IndexError)
    end.
Proof.
  unfold store_bit, locate, Py.setitem, with_bit.
  destruct (Py.subscript _ index) as [i|]; [|reflexivity].
  destruct (bit_arrays f !! i) as [row|] eqn:Er; [|reflexivity].
  destruct (Py.subscript _ hash_val) as [j|]; [|reflexivity].
  do 2 f_equal.
  revert i Er. generalize (bit_arrays f). intros rows.
  induction rows as [|r rows IH]; intros [|i] Er; try discriminate.
  - injection Er as ->. reflexivity.
  - cbn. f_equal. apply IH. exact Er.
Qed.

Lemma shape_with_bit (f : BloomFilter) (i j : nat) (v : Z) :
  shape (with_bit f i j v) = shape f.
Proof.
  apply list_eq. intros k. rewrite !shape_lookup. cbn [with_bit bit_arrays].
  destruct (decide (i = k)) as [->|Hne].
  - rewrite list_lookup_alter_eq.
    destruct (bit_arrays f !! k) as [row|]; [|reflexivity].
    cbn. rewrite length_insert. reflexivity.
  - rewrite list_lookup_alter_ne by exact Hne. reflexivity.
Qed.

Lemma cell_with_bit_eq (f : BloomFilter) (i j : nat) (v : Z) :
  is_Some (cell f i j) -> cell (with_bit f i j v) i j = Some v.
Proof.
  unfold cell. cbn [with_bit bit_arrays]. rewrite list_lookup_alter_eq.
  destruct (bit_arrays f !! i) as [row|]; cbn.
  - intros Hs. apply list_lookup_insert_eq, lookup_lt_is_Some. exact Hs.
  - intros [? ?]. discriminate.
Qed.

Lemma cell_with_bit_ne (f : BloomFilter) (i j i' j' : nat) (v : Z) :
  (i', j') <> (i, j) -> cell (with_bit f i j v) i' j' = cell f i' j'.
Proof.
  intros Hne. unfold cell. cbn [with_bit bit_arrays].
  destruct (decide (i = i')) as [->|Hi].
  - rewrite list_lookup_alter_eq.
    destruct (bit_arrays f !! i') as [row|]; [|reflexivity].
    cbn. apply list_lookup_insert_ne. congruence.
  - rewrite list_lookup_alter_ne by exact Hi. reflexivity.
Qed.

(** Writing a bit that already holds the value changes nothing. *)
Lemma with_bit_id (f : BloomFilter) (i j : nat) (v : Z) :
  cell f i j = Some v -> with_bit f i j v = f.
Proof.
  unfold cell, with_bit. destruct f as [n rows]. cbn [size bit_arrays].
  intros Hc. f_equal. apply list_eq. intros k.
  destruct (decide (i = k)) as [->|Hne].
  - rewrite list_lookup_alter_eq.
    destruct (rows !! k) as [row|]; [|reflexivity].
    cbn. f_equal. apply list_insert_id. exact Hc.
  - apply list_lookup_alter_ne. exact Hne.
Qed.

(** ** The monad *)

Lemma bind_ok {A B} (c : M A) (k : A -> M B) (f f1 : BloomFilter) (a : A) :
  c f = (f1, Ok a) -> bind c k f = k a f1.
Proof. intros E. unfold bind. rewrite E. reflexivity. Qed.

Lemma bind_raise {A B} (c : M A) (k : A -> M B) (f f1 : BloomFilter) (e : exn) :
  c f = (f1, Raise e) -> bind c k f = (f1, Raise e).
Proof. intros E. unfold bind. rewrite E. reflexivity. Qed.

(** Rewrite a [bind] whose first computation is known by equation [E]. *)
Ltac bind_step E :=
  first [ rewrite (bind_ok _ _ _ _ _ E) | rewrite (bind_raise _ _ _ _ _ E) ].

(** ** [grows] is a preorder that every [add] follows *)

Lemma grows_refl (f : BloomFilter) : grows f f.
Proof. repeat split. intros i j. left. reflexivity. Qed.

Lemma grows_trans (f g h : BloomFilter) : grows f g -> grows g h -> grows f h.
Proof.
  intros (Hs1 & Hl1 & Hc1) (Hs2 & Hl2 & Hc2). repeat split; try congruence.
  intros i j. destruct (Hc2 i j) as [E|E]; [|right; exact E].
  rewrite E. apply Hc1.
Qed.

Lemma grows_with_bit (f : BloomFilter) (i j : nat) :
  is_Some (cell f i j) -> grows f (with_bit f i j 1).
Proof.
  intros Hs. split; [reflexivity|]. split; [apply shape_with_bit|].
  intros i' j'. destruct (decide ((i', j') = (i, j))) as [E|Hne].
  - injection E as -> ->. right. apply cell_with_bit_eq. exact Hs.
  - left. apply cell_with_bit_ne. exact Hne.
Qed.

Lemma store_bit_grows (index hash_val : Z) (f : BloomFilter) :
  grows f (fst (store_bit index hash_val 1 f)).
Proof.
  rewrite store_bit_locate.
  destruct (locate f index hash_val) as [[i j]|] eqn:El.
  - apply grows_with_bit. eapply locate_cell. exact El.
  - apply grows_refl.
Qed.

Lemma add_loop_grows (ps : list (Z * Z)) (f : BloomFilter) :
  grows f (fst (add_loop ps f)).
Proof.
  revert f. induction ps as [|[index hash_val] ps IH]; intros f.
  - apply grows_refl.
  - cbn [add_loop]. pose proof (store_bit_grows index hash_val f) as Hg.
    destruct (store_bit index hash_val 1 f) as [f1 [[]|e]] eqn:E.
    + bind_step E. eapply grows_trans; [exact Hg|apply IH].
    + bind_step E. exact Hg.
Qed.

Lemma add_grows (x : item) (f : BloomFilter) : grows f (fst (add x f)).
Proof.
  unfold add. pose proof (hashes_state x f) as Hs.
  destruct (_hashes x f) as [f1 [hs|e]] eqn:E; cbn [fst] in Hs; subst f1.
  - bind_step E. apply add_loop_grows.
  - bind_step E. apply grows_refl.
Qed.

Lemma add_all_grows (xs : list item) (f : BloomFilter) :
  grows f (fst (add_all xs f)).
Proof.
  revert f. induction xs as [|x xs IH]; intros f.
  - apply grows_refl.
  - cbn [add_all]. pose proof (add_grows x f) as Hg.
    destruct (add x f) as [f1 [[]|e]] eqn:E.
    + bind_step E. eapply grows_trans; [exact Hg|apply IH].
    + bind_step E. exact Hg.
Qed.

(** ** Reading after growth *)

Lemma grows_load (f g : BloomFilter) (index hash_val v : Z) :
  grows f g ->
  load_bit index hash_val f = (f, Ok v) ->
  load_bit index hash_val g = (g, Ok v) \/ load_bit index hash_val g = (g, Ok 1).
Proof.
  intros (_ & Hsh & Hc). rewrite !load_bit_locate.
  rewrite (locate_shape f g) by exact Hsh.
  destruct (locate f index hash_val) as [[i j]|]; [|discriminate].
  intros E. destruct (Hc i j) as [-> | ->].
  - left. destruct (cell f i j); [|discriminate]. congruence.
  - right. reflexivity.
Qed.

Lemma grows_reads_set (f g : BloomFilter) (p : Z * Z) :
  grows f g -> reads_set f p -> reads_set g p.
Proof.
  intros Hg (v & Hv & Hnz).
  destruct (grows_load _ _ _ _ _ Hg Hv) as [E|E].
  - exists v. split; assumption.
  - exists 1. split; [exact E|discriminate].
Qed.

(** ** The loop of [check] *)

Lemma load_bit_state (index hash_val : Z) (f : BloomFilter) :
  fst (load_bit index hash_val f) = f.
Proof. rewrite load_bit_locate. reflexivity. Qed.

Lemma check_loop_state (ps : list (Z * Z)) (f : BloomFilter) :
  fst (check_loop ps f) = f.
Proof.
  induction ps as [|[index hash_val] ps IH]; [reflexivity|].
  cbn [check_loop]. pose proof (load_bit_state index hash_val f) as Hs.
  destruct (load_bit index hash_val f) as [f1 [b|e]] eqn:E;
    cbn [fst] in Hs; subst f1.
  - bind_step E. destruct (b =? 0); [reflexivity|exact IH].
  - bind_step E. reflexivity.
Qed.

Lemma check_loop_true (ps : list (Z * Z)) (f : BloomFilter) :
  Forall (reads_set f) ps -> check_loop ps f = (f, Ok true).
Proof.
  induction 1 as [|[index hash_val] ps (v & Hv & Hnz) _ IH]; [reflexivity|].
  cbn [check_loop]. cbn [fst snd] in Hv. bind_step Hv.
  apply Z.eqb_neq in Hnz. rewrite Hnz. exact IH.
Qed.

Lemma check_loop_true_inv (ps : list (Z * Z)) (f : BloomFilter) :
  snd (check_loop ps f) = Ok true -> Forall (reads_set f) ps.
Proof.
  induction ps as [|[index hash_val] ps IH]; [constructor|].
  cbn [check_loop]. pose proof (load_bit_state index hash_val f) as Hs.
  destruct (load_bit index hash_val f) as [f1 [b|e]] eqn:E;
    cbn [fst] in Hs; subst f1.
  - bind_step E.
    destruct (Z.eqb_spec b 0) as [_|Hnz]; [discriminate|].
    intros H. constructor; [|apply IH; exact H].
    exists b. split; assumption.
  - bind_step E. discriminate.
Qed.

(** ** The loop of [add] *)

(** After a loop that ran to its end, each of its bits reads 1. *)
Lemma add_loop_sets (ps : list (Z * Z)) (f f' : BloomFilter) :
  add_loop ps f = (f', Ok tt) ->
  Forall (fun p => load_bit (fst p) (snd p) f' = (f', Ok 1)) ps.
Proof.
  revert f. induction ps as [|[index hash_val] ps IH]; intros f; [constructor|].
  cbn [add_loop]. unfold bind at 1. rewrite store_bit_locate.
  destruct (locate f index hash_val) as [[i j]|] eqn:El; [|discriminate].
  intros E. constructor; [|eapply IH; exact E].
  cbn [fst snd].
  assert (load_bit index hash_val (with_bit f i j 1)
          = (with_bit f i j 1, Ok 1)) as H1.
  { rewrite load_bit_locate, (locate_shape f) by apply shape_with_bit.
    rewrite El, cell_with_bit_eq by (eapply locate_cell; exact El).
    reflexivity. }
  pose proof (add_loop_grows ps (with_bit f i j 1)) as Hg.
  rewrite E in Hg. cbn [fst] in Hg.
  destruct (grows_load _ _ _ _ _ Hg H1) as [H|H]; exact H.
Qed.

Lemma reads_one_set (f : BloomFilter) (ps : list (Z * Z)) :
  Forall (fun p => load_bit (fst p) (snd p) f = (f, Ok 1)) ps ->
  Forall (reads_set f) ps.
Proof.
  intros Hall. eapply Forall_impl; [exact Hall|].
  intros p H. exists 1. split; [exact H|discriminate].
Qed.

(** After [add x] has returned, the bits that [check x] reads are set. *)
Lemma add_sets (x : item) (f f1 : BloomFilter) :
  add x f = (f1, Ok tt) ->
  size f1 <> 0
  /\ Forall (reads_set f1)
       (Py.enumerate (map (fun d => d mod size f1) (hash_ints x))).
Proof.
  intros Ha. pose proof (add_grows x f) as (Hsz & _).
  rewrite Ha in Hsz. cbn [fst] in Hsz.
  unfold add in Ha. destruct (Z.eq_dec (size f) 0) as [Hz|Hn].
  - rewrite (bind_raise _ _ _ _ _ (hashes_zero x f Hz)) in Ha. discriminate.
  - rewrite (bind_ok _ _ _ _ _ (hashes_nonzero x f Hn)) in Ha.
    split; [congruence|]. rewrite Hsz.
    apply reads_one_set. eapply add_loop_sets. exact Ha.
Qed.

(** [check x] answers [True] exactly when the bits it reads are set. *)
Lemma check_true (x : item) (f : BloomFilter) :
  size f <> 0 ->
  Forall (reads_set f) (Py.enumerate (map (fun d => d mod size f) (hash_ints x))) ->
  check x f = (f, Ok true).
Proof.
  intros Hn Hs. unfold check.
  rewrite (bind_ok _ _ _ _ _ (hashes_nonzero x f Hn)).
  apply check_loop_true. exact Hs.
Qed.

Lemma check_true_inv (x : item) (f : BloomFilter) :
  snd (check x f) = Ok true ->
  size f <> 0
  /\ Forall (reads_set f)
       (Py.enumerate (map (fun d => d mod size f) (hash_ints x))).
Proof.
  unfold check. destruct (Z.eq_dec (size f) 0) as [Hz|Hn].
  - rewrite (bind_raise _ _ _ _ _ (hashes_zero x f Hz)). discriminate.
  - rewrite (bind_ok _ _ _ _ _ (hashes_nonzero x f Hn)).
    intros H. split; [exact Hn|]. apply check_loop_true_inv. exact H.
Qed.

Lemma check_state (x : item) (f : BloomFilter) : fst (check x f) = f.
Proof.
  unfold check. destruct (Z.eq_dec (size f) 0) as [Hz|Hn].
  - rewrite (bind_raise _ _ _ _ _ (hashes_zero x f Hz)). reflexivity.
  - rewrite (bind_ok _ _ _ _ _ (hashes_nonzero x f Hn)). apply check_loop_state.
Qed.

(** A [True] answer survives growth. *)
Lemma grows_check_true (x : item) (f g : BloomFilter) :
  grows f g -> snd (check x f) = Ok true -> check x g = (g, Ok true).
Proof.
  intros Hg Hc. destruct (check_true_inv _ _ Hc) as (Hn & Hs).
  pose proof Hg as (Hsz & _).
  apply check_true; rewrite Hsz; [exact Hn|].
  eapply Forall_impl; [exact Hs|].
  intros p Hp. eapply grows_reads_set; eassumption.
Qed.

(** ** Hash positions *)

Lemma hash_ints_three (x : item) :
  exists d1 d2 d3,
    hash_ints x = [d1; d2; d3] /\ 0 <= d1 /\ 0 <= d2 /\ 0 <= d3.
Proof.
  unfold hash_ints. do 3 eexists. split; [reflexivity|].
  repeat split; apply int_of_digest_nonneg.
Qed.

(** ** Construction *)

Lemma init_value (s : option Z) :
  __init__ s
  = Ok {| size := default 100 s;
          bit_arrays := replicate 3 (replicate (Z.to_nat (default 100 s)) 0) |}.
Proof. reflexivity. Qed.

Lemma init_well_formed (n : Z) :
  1 <= n ->
  well_formed {| size := n; bit_arrays := replicate 3 (replicate (Z.to_nat n) 0) |}.
Proof.
  intros Hn. split; [exact Hn|].
  unfold shape. cbn [bit_arrays size replicate map].
  rewrite length_replicate. reflexivity.
Qed.

(** In a well-formed filter every hash position of every array is a cell. *)
Lemma well_formed_locate (f : BloomFilter) (k : nat) (h : Z) :
  well_formed f -> (k < 3)%nat -> 0 <= h < size f ->
  locate f (Z.of_nat k) h = Some (k, Z.to_nat h).
Proof.
  intros (Hsz & Hsh) Hk Hh. unfold locate.
  pose proof (shape_length f) as Hl. rewrite Hsh, length_replicate in Hl.
  rewrite <- Hl, subscript_in_range, Nat2Z.id by lia.
  pose proof (shape_lookup f k) as Hr.
  rewrite Hsh, lookup_replicate_2 in Hr by exact Hk.
  destruct (bit_arrays f !! k) as [row|]; [|discriminate].
  injection Hr as Hr. rewrite <- Hr, subscript_in_range by lia.
  reflexivity.
Qed.

Lemma grows_well_formed (f g : BloomFilter) :
  grows f g -> well_formed f -> well_formed g.
Proof.
  intros (Hsz & Hsh & _) (H1 & H2). split; [lia|]. congruence.
Qed.

Lemma add_loop_returns (ps : list (Z * Z)) (f : BloomFilter) :
  Forall (fun p => is_Some (locate f (fst p) (snd p))) ps ->
  snd (add_loop ps f) = Ok tt.
Proof.
  revert f. induction ps as [|[index hash_val] ps IH]; intros f Hall;
    [reflexivity|].
  apply Forall_cons in Hall as [[[i j] El] Hall]. cbn [fst snd] in El.
  cbn [add_loop]. unfold bind at 1. rewrite store_bit_locate, El.
  apply IH. eapply Forall_impl; [exact Hall|].
  intros p Hp. rewrite (locate_shape f) by apply shape_with_bit. exact Hp.
Qed.

(** On a well-formed filter [add] returns, and leaves it well-formed. *)
Lemma add_returns (x : item) (f : BloomFilter) :
  well_formed f ->
  exists f', add x f = (f', Ok tt) /\ well_formed f'.
Proof.
  intros Hwf. exists (fst (add x f)). split.
  - rewrite (surjective_pairing (add x f)) at 1. f_equal.
    pose proof Hwf as (Hsz & _).
    unfold add. rewrite (bind_ok _ _ _ _ _ (hashes_nonzero x f ltac:(lia))).
    apply add_loop_returns.
    destruct (hash_ints_three x) as (d1 & d2 & d3 & -> & _).
    cbn [map Py.enumerate length Py.range seq combine fst snd].
    repeat constructor; cbn [fst snd];
      [ rewrite (well_formed_locate f 0)
      | rewrite (well_formed_locate f 1)
      | rewrite (well_formed_locate f 2) ];
      eauto using Z.mod_pos_bound with lia.
  - eapply grows_well_formed; [apply add_grows|exact Hwf].
Qed.

Lemma add_all_returns (xs : list item) (f : BloomFilter) :
  well_formed f ->
  exists f', add_all xs f = (f', Ok tt) /\ well_formed f'.
Proof.
  revert f. induction xs as [|x xs IH]; intros f Hwf.
  - exists f. split; [reflexivity|exact Hwf].
  - destruct (add_returns x f Hwf) as (f1 & E1 & Hwf1).
    destruct (IH f1 Hwf1) as (f2 & E2 & Hwf2).
    exists f2. split; [|exact Hwf2].
    cbn [add_all]. bind_step E1. exact E2.
Qed.

(** ** Adding again, and what an [add] leaves alone *)

Lemma add_loop_again (ps : list (Z * Z)) (f : BloomFilter) :
  add_loop ps (fst (add_loop ps f)) = add_loop ps f.
Proof.
  revert f. induction ps as [|[index hash_val] ps IH]; intros f; [reflexivity|].
  cbn [add_loop]. unfold bind at 2 3. rewrite store_bit_locate.
  destruct (locate f index hash_val) as [[i j]|] eqn:El.
  - set (f1 := with_bit f i j 1).
    pose proof (add_loop_grows ps f1) as Hg.
    assert (store_bit index hash_val 1 (fst (add_loop ps f1))
            = (fst (add_loop ps f1), Ok tt)) as Hs.
    { rewrite store_bit_locate.
      destruct Hg as (_ & Hsh & Hc).
      rewrite (locate_shape f1) by exact Hsh.
      unfold f1 at 1. rewrite (locate_shape f) by apply shape_with_bit.
      rewrite El. f_equal. apply with_bit_id.
      destruct (Hc i j) as [E|E]; [|exact E].
      rewrite E. apply cell_with_bit_eq. eapply locate_cell. exact El. }
    bind_step Hs. apply IH.
  - cbn [fst]. unfold bind. rewrite store_bit_locate, El. reflexivity.
Qed.

Lemma add_again (x : item) (f : BloomFilter) :
  add x (fst (add x f)) = add x f.
Proof.
  unfold add at 1 3. destruct (Z.eq_dec (size f) 0) as [Hz|Hn].
  - unfold add. rewrite (bind_raise _ _ _ _ _ (hashes_zero x f Hz)).
    cbn [fst]. rewrite (bind_raise _ _ _ _ _ (hashes_zero x f Hz)). reflexivity.
  - pose proof (add_grows x f) as (Hsz & _).
    rewrite (bind_ok _ _ _ _ _ (hashes_nonzero x f Hn)).
    rewrite (bind_ok _ _ _ _ _
               (hashes_nonzero x (fst (add x f)) ltac:(congruence))).
    rewrite Hsz. unfold add.
    rewrite (bind_ok _ _ _ _ _ (hashes_nonzero x f Hn)).
    apply add_loop_again.
Qed.

Lemma add_loop_frame (ps : list (Z * Z)) (f : BloomFilter) (i j : nat) :
  Forall (fun p => locate f (fst p) (snd p) <> Some (i, j)) ps ->
  cell (fst (add_loop ps f)) i j = cell f i j.
Proof.
  revert f. induction ps as [|[index hash_val] ps IH]; intros f Hall;
    [reflexivity|].
  apply Forall_cons in Hall as [Hne Hall]. cbn [fst snd] in Hne.
  cbn [add_loop]. unfold bind at 1. rewrite store_bit_locate.
  destruct (locate f index hash_val) as [[i0 j0]|] eqn:El; [|reflexivity].
  rewrite IH.
  - apply cell_with_bit_ne. congruence.
  - eapply Forall_impl; [exact Hall|].
    intros p Hp. rewrite (locate_shape f) by apply shape_with_bit. exact Hp.
Qed.

(** After [add x] has returned, [check x] answers [True] in every state
    that grew out of the resulting one. *)
Lemma add_then_check (x : item) (f f1 g : BloomFilter) :
  add x f = (f1, Ok tt) -> grows f1 g -> check x g = (g, Ok true).
Proof.
  intros Ha Hg. destruct (add_sets _ _ _ Ha) as (Hn & Hs).
  eapply grows_check_true; [exact Hg|].
  rewrite check_true by assumption. reflexivity.
Qed.

Lemma add_all_app (xs ys : list item) (f : BloomFilter) :
  add_all (xs ++ ys) f = (add_all xs ;;; add_all ys) f.
Proof.
  revert f. induction xs as [|x xs IH]; intros f; [reflexivity|].
  cbn [app add_all]. unfold bind.
  destruct (add x f) as [f1 [[]|e]]; [|reflexivity].
  rewrite IH. reflexivity.
Qed.

(** On a filter built with a size of at least 1, every run of insertions
    returns, and an item inserted anywhere in the run is found after it. *)
Lemma inserted_is_found (n : Z) (before after : list item) (x : item) :
  1 <= n ->
  exists f,
    add_all (before ++ x :: after)
            {| size := n; bit_arrays := replicate 3 (replicate (Z.to_nat n) 0) |}
    = (f, Ok tt)
    /\ check x f = (f, Ok true).
Proof.
  intros Hn.
  destruct (add_all_returns before _ (init_well_formed n Hn)) as (f0 & E0 & W0).
  destruct (add_returns x f0 W0) as (f1 & E1 & W1).
  destruct (add_all_returns after f1 W1) as (f2 & E2 & _).
  exists f2. split.
  - rewrite add_all_app. bind_step E0. cbn [add_all]. bind_step E1. exact E2.
  - eapply add_then_check; [exact E1|].
    pose proof (add_all_grows after f1) as Hg. rewrite E2 in Hg. exact Hg.
Qed.

Example bf_constructed : __init__ (Some 50) = Ok bf.
Proof. reflexivity. Qed.

(** * The properties *)

(** C1 - No false negatives. For every filter state [f] (whatever was
    inserted before) and every item [x]: once [add x] has returned, and
    after any further run [ys] of insertions, in any order and however that
    run ends, [check x] returns [True]. *)
Theorem no_false_negatives
    (f : BloomFilter) (x : item) (ys : list item)
    (f1 f2 : BloomFilter) (r : result unit) :
  add x f = (f1, Ok tt) ->
  add_all ys f1 = (f2, r) ->
  check x f2 = (f2, Ok true).
Proof.
  intros Ha Hys. eapply add_then_check; [exact Ha|].
  pose proof (add_all_grows ys f1) as Hg. rewrite Hys in Hg. exact Hg.
Qed.

Lemma no_false_negatives_witness :
  let f0 := fst (add_all [PyStr "openai"; PyBool false] bf) in
  let f1 := fst (add (PyStr "google") f0) in
  let f2 := fst (add_all [PyStr "microsoft"; PyNone] f1) in
  add (PyStr "google") f0 = (f1, Ok tt)
  /\ add_all [PyStr "microsoft"; PyNone] f1 = (f2, Ok tt)
  /\ check (PyStr "google") f2 = (f2, Ok true).
Proof.
  intros f0 f1 f2.
  assert (add (PyStr "google") f0 = (f1, Ok tt)) as H1
    by (vm_compute; reflexivity).
  assert (add_all [PyStr "microsoft"; PyNone] f1 = (f2, Ok tt)) as H2
    by (vm_compute; reflexivity).
  split; [exact H1|]. split; [exact H2|].
  exact (no_false_negatives f0 (PyStr "google") _ f1 f2 (Ok tt) H1 H2).
Defined.




(** C3 - Empty-filter correctness. On a filter fresh from the constructor
    with a size of at least 1 (given, or the default), without any
    insertion, [check x] returns [False] for every item [x]. *)
Theorem empty_filter_rejects (s : option Z) (x : item) :
  1 <= default 100 s ->
  exists f, __init__ s = Ok f /\ check x f = (f, Ok false).
Proof.
  intros Hn. eexists. split; [apply init_value|].
  set (n := default 100 s) in *.
  set (f := {| size := n; bit_arrays := _ |}).
  pose proof (init_well_formed n Hn) as Hwf. fold f in Hwf.
  unfold check.
  rewrite (bind_ok _ _ _ _ _ (hashes_nonzero x f ltac:(cbn; lia))).
  destruct (hash_ints_three x) as (d1 & d2 & d3 & -> & _).
  cbn [map Py.enumerate length Py.range seq combine check_loop].
  assert (load_bit (Z.of_nat 0) (d1 mod size f) f = (f, Ok 0)) as Hl.
  { pose proof (Z.mod_pos_bound d1 (size f) ltac:(cbn; lia)) as Hb.
    rewrite load_bit_locate, (well_formed_locate f 0) by (auto; lia).
    unfold cell, f in *. cbn [bit_arrays size replicate lookup list_lookup] in *.
    rewrite lookup_replicate_2 by lia.
    reflexivity. }
  bind_step Hl. reflexivity.
Qed.

Lemma empty_filter_rejects_witness :
  1 <= default 100 (Some 50)
  /\ exists f, __init__ (Some 50) = Ok f
             /\ check (PyStr "microsoft") f = (f, Ok false).
Proof.
  split; [cbn; lia|].
  apply (empty_filter_rejects (Some 50) (PyStr "microsoft")). cbn. lia.
Defined.

(** C4 - Monotonicity. Over any run [ys] of [add] calls, however it ends,
    a bit that holds 1 still holds 1 afterwards; a [check] clears no bit
    either; and an item for which [check] answered [True] before the run
    still gets [True] after it, so an answer can only go from [False] to
    [True]. *)
Theorem monotonicity
    (f : BloomFilter) (ys : list item) (i j : nat) (x : item) :
  (cell f i j = Some 1 -> cell (fst (add_all ys f)) i j = Some 1)
  /\ (cell f i j = Some 1 -> cell (fst (check x f)) i j = Some 1)
  /\ (snd (check x f) = Ok true ->
      snd (check x (fst (add_all ys f))) = Ok true).
Proof.
  pose proof (add_all_grows ys f) as Hg. split; [|split].
  - intros H1. destruct Hg as (_ & _ & Hc).
    destruct (Hc i j) as [E|E]; [rewrite E; exact H1|exact E].
  - rewrite check_state. intros H1. exact H1.
  - intros Ht. rewrite (grows_check_true x f _ Hg Ht). reflexivity.
Qed.

Lemma monotonicity_witness :
  let f := fst (add (PyStr "google") bf) in
  let ys := [PyStr "openai"; PyStr "microsoft"] in
  (cell f 0 12 = Some 1 /\ cell (fst (add_all ys f)) 0 12 = Some 1)
  /\ (snd (check (PyStr "google") f) = Ok true
      /\ snd (check (PyStr "google") (fst (add_all ys f))) = Ok true).
Proof.
  intros f ys.
  destruct (monotonicity f ys 0 12 (PyStr "google")) as (Hbit & _ & Hcheck).
  assert (cell f 0 12 = Some 1) as H1 by (vm_compute; reflexivity).
  assert (snd (check (PyStr "google") f) = Ok true) as H2
    by (vm_compute; reflexivity).
  split; split; [exact H1|exact (Hbit H1)|exact H2|exact (Hcheck H2)].
Defined.

(** C5 - Idempotence of insertion. In every filter state, for every item,
    [add(x)] run twice in a row leaves exactly the state that one [add(x)]
    leaves, and ends the same way. *)
Theorem add_idempotent (x : item) (f : BloomFilter) :
  fst (add x (fst (add x f))) = fst (add x f)
  /\ (add x ;;; add x) f = add x f.
Proof.
  pose proof (add_again x f) as Hagain. split.
  - rewrite Hagain. reflexivity.
  - unfold bind. destruct (add x f) as [f1 [[]|e]]; [exact Hagain|reflexivity].
Qed.

(** C6 - Hash-position contract. In every filter whose size is at least 1,
    for every item, [_hashes] returns a list of exactly three indices: the
    md5, sha1 and sha256 digests of the item's encoded string form, read as
    unsigned integers and reduced modulo [size], in that order; each lies in
    [0 .. size-1]; and any filter of the same size gives the same list. *)
Theorem hash_position_contract (f : BloomFilter) (x : item) :
  1 <= size f ->
  exists h1 h2 h3,
    _hashes x f = (f, Ok [h1; h2; h3])
    /\ (let item_str := Py.encode_utf8 (Py.str x) in
        h1 = int_of_digest (hashlib.md5 item_str) mod size f
        /\ h2 = int_of_digest (hashlib.sha1 item_str) mod size f
        /\ h3 = int_of_digest (hashlib.sha256 item_str) mod size f)
    /\ (0 <= h1 < size f /\ 0 <= h2 < size f /\ 0 <= h3 < size f)
    /\ (forall g, size g = size f -> snd (_hashes x g) = Ok [h1; h2; h3]).
Proof.
  intros Hn. do 3 eexists.
  split; [rewrite hashes_nonzero by lia; reflexivity|].
  split; [repeat split|].
  split; [repeat split; apply Z.mod_pos_bound; lia|].
  intros g Hg. rewrite (hashes_same_size x f g Hg), hashes_nonzero by lia.
  reflexivity.
Qed.

Lemma hash_position_contract_witness :
  1 <= size bf
  /\ _hashes (PyStr "google") bf = (bf, Ok [12; 35; 31]).
Proof.
  assert (1 <= size bf) as Hn by (cbn; lia).
  split; [exact Hn|].
  destruct (hash_position_contract bf (PyStr "google") Hn)
    as (h1 & h2 & h3 & -> & (-> & -> & ->) & _).
  vm_compute. reflexivity.
Defined.

(** C7 - [check] is a pure read. In every filter state, for every item,
    [check] leaves the state ([size] and all bit arrays) as it was, and a
    second call gives what the first gave. *)
Theorem check_pure_read (x : item) (f : BloomFilter) :
  fst (check x f) = f
  /\ check x (fst (check x f)) = check x f
  /\ (b <- check x ;; check x) f = check x f.
Proof.
  pose proof (check_state x f) as Hs.
  split; [exact Hs|]. split; [rewrite Hs; reflexivity|].
  unfold bind. destruct (check x f) as [f1 [b|e]] eqn:E; [|reflexivity].
  cbn [fst] in Hs. subst f1. exact E.
Qed.

(** C8 - String-coercion equivalence. Two items with the same string form
    are one item to the filter: in every state they get the same hash
    positions, the same [check] answer and the same effect of [add]; and
    once [add a] has returned, [check b] returns [True]. *)
Theorem string_coercion (a b : item) (f : BloomFilter) :
  Py.str a = Py.str b ->
  _hashes a f = _hashes b f
  /\ check a f = check b f
  /\ add a f = add b f
  /\ (forall f1, add a f = (f1, Ok tt) -> check b f1 = (f1, Ok true)).
Proof.
  intros E.
  assert (forall g, _hashes a g = _hashes b g) as Hh
    by (intros g; unfold _hashes; rewrite E; reflexivity).
  assert (forall g, check a g = check b g) as Hc
    by (intros g; unfold check, bind; rewrite Hh; reflexivity).
  split; [apply Hh|]. split; [apply Hc|].
  split; [unfold add, bind; rewrite Hh; reflexivity|].
  intros f1 Ha. rewrite <- Hc.
  eapply add_then_check; [exact Ha|apply grows_refl].
Qed.

Lemma string_coercion_witness :
  let f1 := fst (add (PyBool true) bf) in
  Py.str (PyBool true) = Py.str (PyStr "True")
  /\ _hashes (PyBool true) bf = _hashes (PyStr "True") bf
  /\ check (PyBool true) bf = check (PyStr "True") bf
  /\ add (PyBool true) bf = (f1, Ok tt)
  /\ check (PyStr "True") f1 = (f1, Ok true).
Proof.
  intros f1.
  assert (Py.str (PyBool true) = Py.str (PyStr "True")) as E by reflexivity.
  destruct (string_coercion (PyBool true) (PyStr "True") bf E) as (Hh & Hc & _ & Hac).
  assert (add (PyBool true) bf = (f1, Ok tt)) as Ha by (vm_compute; reflexivity).
  split; [exact E|]. split; [exact Hh|]. split; [exact Hc|].
  split; [exact Ha|exact (Hac f1 Ha)].
Defined.

(** C9 - A filter of size 0. [BloomFilter(0)] is built without an error and
    has three empty bit arrays; on it, and on any filter whose size is 0,
    every [add] and every [check] raises [ZeroDivisionError] and leaves the
    filter as it was, so that each later call raises again. *)
Theorem zero_size_raises_on_use :
  (exists f, __init__ (Some 0) = Ok f
             /\ size f = 0 /\ bit_arrays f = [[]; []; []])
  /\ (forall f x, size f = 0 ->
        add x f = (f, Raise ZeroDivisionError)
        /\ check x f = (f, Raise ZeroDivisionError)).
Proof.
  split; [eexists; repeat split|].
  intros f x Hz. unfold add, check.
  rewrite !(bind_raise _ _ _ _ _ (hashes_zero x f Hz)). split; reflexivity.
Qed.

Lemma zero_size_raises_on_use_witness :
  add (PyStr "google") {| size := 0; bit_arrays := [[]; []; []] |}
  = ({| size := 0; bit_arrays := [[]; []; []] |}, Raise ZeroDivisionError)
  /\ check (PyStr "google") {| size := 0; bit_arrays := [[]; []; []] |}
     = ({| size := 0; bit_arrays := [[]; []; []] |}, Raise ZeroDivisionError).
Proof.
  destruct zero_size_raises_on_use as [_ H].
  apply (H {| size := 0; bit_arrays := [[]; []; []] |} (PyStr "google")).
  reflexivity.
Defined.

(** C10 - What [add] leaves alone. In every filter whose size is at least
    1, [add x] keeps [size] and the length of every bit array, and keeps
    every bit cell except, in each of the three arrays, the one at that
    array's hash position for [x]. *)
Theorem add_frame (x : item) (f : BloomFilter) (i j : nat) :
  1 <= size f ->
  size (fst (add x f)) = size f
  /\ shape (fst (add x f)) = shape f
  /\ (map (fun d => d mod size f) (hash_ints x) !! i <> Some (Z.of_nat j) ->
      cell (fst (add x f)) i j = cell f i j).
Proof.
  intros Hn. pose proof (add_grows x f) as (Hsz & Hsh & _).
  split; [exact Hsz|]. split; [exact Hsh|].
  unfold add. rewrite (bind_ok _ _ _ _ _ (hashes_nonzero x f ltac:(lia))).
  destruct (hash_ints_three x) as (d1 & d2 & d3 & -> & _).
  pose proof (Z.mod_pos_bound d1 (size f) ltac:(lia)).
  pose proof (Z.mod_pos_bound d2 (size f) ltac:(lia)).
  pose proof (Z.mod_pos_bound d3 (size f) ltac:(lia)).
  cbn [map Py.enumerate length Py.range seq combine].
  intros Hne. apply add_loop_frame.
  repeat (apply Forall_cons; split); [| | |constructor];
    cbn [fst snd]; intros El;
    apply locate_nonneg in El as [Ei Ej]; try lia;
    apply Hne; rewrite Ei, Ej, Z2Nat.id by lia; reflexivity.
Qed.

Lemma add_frame_witness :
  1 <= size bf
  /\ size (fst (add (PyStr "google") bf)) = size bf
  /\ shape (fst (add (PyStr "google") bf)) = shape bf
  /\ cell (fst (add (PyStr "google") bf)) 0 13 = cell bf 0 13.
Proof.
  assert (1 <= size bf) as Hn by (cbn; lia).
  destruct (add_frame (PyStr "google") bf 0 13 Hn) as (Hsz & Hsh & Hc).
  split; [exact Hn|]. split; [exact Hsz|]. split; [exact Hsh|].
  apply Hc. vm_compute. discriminate.
Defined.

(** * More of the behaviour of the class *)

(** ** Two filters with the same size, array lengths and cells are equal *)

Lemma filter_ext (f g : BloomFilter) :
  size f = size g -> shape f = shape g ->
  (forall i j, cell f i j = cell g i j) -> f = g.
Proof.
  destruct f as [n rows], g as [m rows']. unfold shape, cell.
  cbn [size bit_arrays]. intros -> Hsh Hc. f_equal.
  apply list_eq. intros i.
  pose proof (f_equal (fun l => l !! i) Hsh) as Hl. cbn beta in Hl.
  rewrite !(list_lookup_fmap length) in Hl.
  specialize (Hc i).
  destruct (rows !! i) as [r|], (rows' !! i) as [r'|]; try discriminate;
    [|reflexivity].
  f_equal. apply list_eq. exact Hc.
Qed.

(** ** The cells an [add] writes *)

Lemma marks_shape (f g : BloomFilter) (ps : list (Z * Z)) :
  shape g = shape f -> marks g ps = marks f ps.
Proof.
  intros E. induction ps as [|[index hash_val] ps IH]; [reflexivity|].
  cbn [marks]. rewrite (locate_shape f g) by exact E. rewrite IH. reflexivity.
Qed.

Lemma cell_with_bit (f : BloomFilter) (i0 j0 i j : nat) :
  is_Some (cell f i0 j0) ->
  cell (with_bit f i0 j0 1) i j
  = if decide ((i, j) = (i0, j0)) then Some 1 else cell f i j.
Proof.
  intros Hs. destruct (decide ((i, j) = (i0, j0))) as [E|Hne].
  - injection E as -> ->. apply cell_with_bit_eq. exact Hs.
  - apply cell_with_bit_ne. exact Hne.
Qed.

Lemma add_loop_cell (ps : list (Z * Z)) (f : BloomFilter) (i j : nat) :
  cell (fst (add_loop ps f)) i j
  = if decide ((i, j) ∈ marks f ps) then Some 1 else cell f i j.
Proof.
  revert f. induction ps as [|[index hash_val] ps IH]; intros f.
  - cbn [add_loop marks ret fst]. destruct (decide _) as [H|_]; [|reflexivity].
    apply elem_of_nil in H. destruct H.
  - cbn [add_loop marks]. unfold bind at 1. rewrite store_bit_locate.
    destruct (locate f index hash_val) as [[i0 j0]|] eqn:El.
    + rewrite IH, (marks_shape f) by apply shape_with_bit.
      rewrite cell_with_bit by (eapply locate_cell; exact El).
      destruct (decide ((i, j) ∈ marks f ps)) as [Hin|Hout].
      * rewrite decide_True by (apply elem_of_cons; right; exact Hin).
        reflexivity.
      * destruct (decide ((i, j) = (i0, j0))) as [E|Hne].
        -- rewrite decide_True by (apply elem_of_cons; left; exact E).
           reflexivity.
        -- rewrite decide_False; [reflexivity|].
           intros [H|H]%elem_of_cons; contradiction.
    + cbn [fst]. destruct (decide _) as [H|_]; [|reflexivity].
      apply elem_of_nil in H. destruct H.
Qed.

Lemma add_state (x : item) (f : BloomFilter) :
  fst (add x f)
  = if size f =? 0 then f
    else fst (add_loop (Py.enumerate (positions (size f) x)) f).
Proof.
  unfold add. destruct (Z.eqb_spec (size f) 0) as [Hz|Hn].
  - rewrite (bind_raise _ _ _ _ _ (hashes_zero x f Hz)). reflexivity.
  - rewrite (bind_ok _ _ _ _ _ (hashes_nonzero x f Hn)). reflexivity.
Qed.

Lemma add_cell (x : item) (f : BloomFilter) (i j : nat) :
  cell (fst (add x f)) i j
  = if decide ((i, j) ∈ add_marks f x) then Some 1 else cell f i j.
Proof.
  rewrite add_state. unfold add_marks.
  destruct (size f =? 0).
  - destruct (decide _) as [H|_]; [|reflexivity].
    apply elem_of_nil in H. destruct H.
  - apply add_loop_cell.
Qed.

Lemma add_marks_grows (f g : BloomFilter) (x : item) :
  grows f g -> add_marks g x = add_marks f x.
Proof.
  intros (Hsz & Hsh & _). unfold add_marks. rewrite Hsz.
  destruct (size f =? 0); [reflexivity|]. apply marks_shape. exact Hsh.
Qed.

(** X1 - Insertion order does not matter. In every filter state, for all
    items [x] and [y], the state left by [add x] and then [add y] is the
    state left by [add y] and then [add x]. *)
Theorem add_commute (x y : item) (f : BloomFilter) :
  fst (add y (fst (add x f))) = fst (add x (fst (add y f))).
Proof.
  pose proof (add_grows x f) as Gx. pose proof (add_grows y f) as Gy.
  pose proof (add_grows y (fst (add x f))) as Gxy.
  pose proof (add_grows x (fst (add y f))) as Gyx.
  apply filter_ext.
  - destruct Gx as (? & _), Gy as (? & _), Gxy as (? & _), Gyx as (? & _).
    congruence.
  - destruct Gx as (_ & ? & _), Gy as (_ & ? & _),
             Gxy as (_ & ? & _), Gyx as (_ & ? & _).
    congruence.
  - intros i j. rewrite !add_cell.
    rewrite (add_marks_grows f _ y Gx), (add_marks_grows f _ x Gy).
    destruct (decide ((i, j) ∈ add_marks f y)),
             (decide ((i, j) ∈ add_marks f x)); reflexivity.
Qed.

(** ** Well-formed filters, row by row *)

Lemma well_formed_rows (f : BloomFilter) :
  well_formed f ->
  exists r0 r1 r2,
    bit_arrays f = [r0; r1; r2]
    /\ length r0 = Z.to_nat (size f)
    /\ length r1 = Z.to_nat (size f)
    /\ length r2 = Z.to_nat (size f).
Proof.
  intros (_ & Hsh). unfold shape in Hsh.
  destruct (bit_arrays f) as [|r0 [|r1 [|r2 [|r3 rows]]]]; try discriminate.
  injection Hsh as H0 H1 H2. eauto 10.
Qed.

Lemma fresh_init (s : option Z) : __init__ s = Ok (fresh (default 100 s)).
Proof. reflexivity. Qed.

Lemma positions_three (n : Z) (x : item) :
  1 <= n ->
  exists h1 h2 h3,
    positions n x = [h1; h2; h3]
    /\ 0 <= h1 < n /\ 0 <= h2 < n /\ 0 <= h3 < n.
Proof.
  intros Hn. unfold positions.
  destruct (hash_ints_three x) as (d1 & d2 & d3 & -> & _).
  do 3 eexists. split; [reflexivity|].
  repeat split; apply Z.mod_pos_bound; lia.
Qed.

Lemma with_bit_well_formed (f : BloomFilter) (i j : nat) (v : Z) :
  well_formed f -> well_formed (with_bit f i j v).
Proof.
  intros (Hn & Hsh). split; [exact Hn|].
  rewrite shape_with_bit. exact Hsh.
Qed.

Lemma store_bit_wf (f : BloomFilter) (k : nat) (h : Z) :
  well_formed f -> (k < 3)%nat -> 0 <= h < size f ->
  store_bit (Z.of_nat k) h 1 f = (with_bit f k (Z.to_nat h) 1, Ok tt).
Proof.
  intros Hwf Hk Hh.
  rewrite store_bit_locate, (well_formed_locate f k h) by assumption.
  reflexivity.
Qed.

(** [add] on a well-formed filter, written out: each of the three arrays
    gets a 1 at its own hash position. *)
Lemma add_rows (x : item) (f : BloomFilter) (r0 r1 r2 : list Z) (h1 h2 h3 : Z) :
  well_formed f ->
  bit_arrays f = [r0; r1; r2] ->
  positions (size f) x = [h1; h2; h3] ->
  add x f
  = ({| size := size f;
        bit_arrays := [<[Z.to_nat h1:=1]> r0;
                       <[Z.to_nat h2:=1]> r1;
                       <[Z.to_nat h3:=1]> r2] |}, Ok tt).
Proof.
  intros Hwf Hrows Hpos.
  destruct (well_formed_rows f Hwf) as (r0' & r1' & r2' & Hrows' & L0 & L1 & L2).
  rewrite Hrows in Hrows'. injection Hrows' as <- <- <-.
  pose proof Hwf as (Hn & _).
  destruct (positions_three (size f) x Hn) as (a & b & c & Hpos' & Ha & Hb & Hc).
  rewrite Hpos in Hpos'. injection Hpos' as <- <- <-.
  unfold add. rewrite (bind_ok _ _ _ _ _ (hashes_nonzero x f ltac:(lia))).
  fold (positions (size f) x). rewrite Hpos.
  cbn [Py.enumerate length Py.range seq map combine add_loop].
  rewrite (bind_ok _ _ _ _ _ (store_bit_wf f 0 h1 Hwf ltac:(lia) Ha)).
  set (f1 := with_bit f 0 (Z.to_nat h1) 1).
  assert (well_formed f1) as Hwf1 by (apply with_bit_well_formed; exact Hwf).
  rewrite (bind_ok _ _ _ _ _ (store_bit_wf f1 1 h2 Hwf1 ltac:(lia) Hb)).
  set (f2 := with_bit f1 1 (Z.to_nat h2) 1).
  assert (well_formed f2) as Hwf2 by (apply with_bit_well_formed; exact Hwf1).
  rewrite (bind_ok _ _ _ _ _ (store_bit_wf f2 2 h3 Hwf2 ltac:(lia) Hc)).
  unfold ret, f2, f1, with_bit. cbn [size bit_arrays]. rewrite Hrows.
  reflexivity.
Qed.

Lemma load_bit_wf (f : BloomFilter) (k : nat) (h : Z) :
  well_formed f -> (k < 3)%nat -> 0 <= h < size f ->
  exists v, cell f k (Z.to_nat h) = Some v
            /\ load_bit (Z.of_nat k) h f = (f, Ok v).
Proof.
  intros Hwf Hk Hh. pose proof (well_formed_locate f k h Hwf Hk Hh) as El.
  destruct (locate_cell _ _ _ _ _ El) as [v Hv]. exists v.
  split; [exact Hv|]. rewrite load_bit_locate, El, Hv. reflexivity.
Qed.

(** X2 - What [add] does on a filter with three arrays of [size >= 1]
    cells: it returns without raising, leaves such a filter again, and
    afterwards the bit at each of the item's three hash positions holds 1. *)
Theorem add_sets_hash_bits (x : item) (f : BloomFilter) :
  well_formed f ->
  exists f',
    add x f = (f', Ok tt)
    /\ well_formed f'
    /\ (forall k h, positions (size f) x !! k = Some h ->
          cell f' k (Z.to_nat h) = Some 1).
Proof.
  intros Hwf. destruct (add_returns x f Hwf) as (f' & Ha & Hwf').
  exists f'. split; [exact Ha|]. split; [exact Hwf'|].
  destruct (well_formed_rows f Hwf) as (r0 & r1 & r2 & Hrows & L0 & L1 & L2).
  pose proof Hwf as (Hn & _).
  destruct (positions_three (size f) x Hn) as (h1 & h2 & h3 & Hpos & H1 & H2 & H3).
  rewrite (add_rows x f r0 r1 r2 h1 h2 h3 Hwf Hrows Hpos) in Ha.
  injection Ha as <-. rewrite Hpos. unfold cell. cbn [bit_arrays].
  intros [|[|[|k]]] h Hk; try discriminate; injection Hk as <-;
    cbn [lookup list_lookup]; apply list_lookup_insert_eq; lia.
Qed.

Lemma add_sets_hash_bits_witness :
  well_formed bf
  /\ exists f',
       add (PyStr "google") bf = (f', Ok tt)
       /\ well_formed f'
       /\ (forall k h, positions (size bf) (PyStr "google") !! k = Some h ->
             cell f' k (Z.to_nat h) = Some 1).
Proof.
  assert (well_formed bf) as Hwf by (apply (init_well_formed 50); lia).
  split; [exact Hwf|]. exact (add_sets_hash_bits (PyStr "google") bf Hwf).
Defined.

Lemma check_wf (x : item) (f : BloomFilter) :
  well_formed f ->
  exists b,
    check x f = (f, Ok b)
    /\ (b = true <->
        forall k h, positions (size f) x !! k = Some h ->
          exists v, cell f k (Z.to_nat h) = Some v /\ v <> 0).
Proof.
  intros Hwf. pose proof Hwf as (Hn & _).
  destruct (positions_three (size f) x Hn) as (h1 & h2 & h3 & Hpos & H1 & H2 & H3).
  destruct (load_bit_wf f 0 h1 Hwf ltac:(lia) H1) as (v1 & C1 & E1).
  destruct (load_bit_wf f 1 h2 Hwf ltac:(lia) H2) as (v2 & C2 & E2).
  destruct (load_bit_wf f 2 h3 Hwf ltac:(lia) H3) as (v3 & C3 & E3).
  unfold check. rewrite (bind_ok _ _ _ _ _ (hashes_nonzero x f ltac:(lia))).
  fold (positions (size f) x). rewrite Hpos.
  cbn [Py.enumerate length Py.range seq map combine check_loop].
  rewrite (bind_ok _ _ _ _ _ E1).
  destruct (Z.eqb_spec v1 0) as [Z1|N1].
  { exists false. split; [reflexivity|]. split; [discriminate|].
    intros H. destruct (H 0%nat h1 eq_refl) as (v & Hv & Hnz). congruence. }
  rewrite (bind_ok _ _ _ _ _ E2).
  destruct (Z.eqb_spec v2 0) as [Z2|N2].
  { exists false. split; [reflexivity|]. split; [discriminate|].
    intros H. destruct (H 1%nat h2 eq_refl) as (v & Hv & Hnz). congruence. }
  rewrite (bind_ok _ _ _ _ _ E3).
  destruct (Z.eqb_spec v3 0) as [Z3|N3].
  { exists false. split; [reflexivity|]. split; [discriminate|].
    intros H. destruct (H 2%nat h3 eq_refl) as (v & Hv & Hnz). congruence. }
  exists true. split; [reflexivity|]. split; [|reflexivity].
  intros _ [|[|[|k]]] h Hk; try discriminate; injection Hk as <-; eauto.
Qed.

(** X3 - What [check] answers on a filter with three arrays of
    [size >= 1] cells: it never raises, and it returns [True] exactly when,
    in each of the three arrays, the bit at the item's hash position for
    that array is not 0. *)
Theorem check_reads_hash_bits (x : item) (f : BloomFilter) :
  well_formed f ->
  exists b,
    check x f = (f, Ok b)
    /\ (b = true <->
        forall k h, positions (size f) x !! k = Some h ->
          exists v, cell f k (Z.to_nat h) = Some v /\ v <> 0).
Proof. exact (check_wf x f). Qed.

Lemma check_reads_hash_bits_witness :
  well_formed bf
  /\ exists b,
       check (PyStr "google") bf = (bf, Ok b)
       /\ (b = true <->
           forall k h, positions (size bf) (PyStr "google") !! k = Some h ->
             exists v, cell bf k (Z.to_nat h) = Some v /\ v <> 0).
Proof.
  assert (well_formed bf) as Hwf by (apply (init_well_formed 50); lia).
  split; [exact Hwf|]. exact (check_reads_hash_bits (PyStr "google") bf Hwf).
Defined.

(** X4 - A filter built with a size of at least 1 never raises. Whatever
    run of insertions follows the construction, every [add] returns, the
    filter keeps its size and its three arrays of [size] cells, and every
    later [check] returns a boolean and leaves the filter as it is. *)
Theorem positive_size_never_raises (n : Z) (ys : list item) :
  1 <= n ->
  exists f,
    add_all ys (fresh n) = (f, Ok tt)
    /\ size f = n
    /\ shape f = replicate 3 (Z.to_nat n)
    /\ (forall x, exists b, check x f = (f, Ok b)).
Proof.
  intros Hn.
  destruct (add_all_returns ys (fresh n) (init_well_formed n Hn))
    as (f & Hrun & Hwf).
  exists f. split; [exact Hrun|].
  pose proof (add_all_grows ys (fresh n)) as (Hsz & _).
  rewrite Hrun in Hsz. cbn [fst fresh size] in Hsz.
  split; [exact Hsz|]. split.
  - destruct Hwf as (_ & Hsh). rewrite Hsh, Hsz. reflexivity.
  - intros x. destruct (check_wf x f Hwf) as (b & Hb & _).
    exists b. exact Hb.
Qed.

Lemma positive_size_never_raises_witness :
  1 <= 50
  /\ exists f,
       add_all [PyStr "google"; PyStr "openai"] (fresh 50) = (f, Ok tt)
       /\ size f = 50
       /\ shape f = replicate 3 (Z.to_nat 50)
       /\ (forall x, exists b, check x f = (f, Ok b)).
Proof.
  split; [lia|].
  apply (positive_size_never_raises 50 [PyStr "google"; PyStr "openai"]). lia.
Defined.

(** ** Whole runs on a well-formed filter *)

Lemma positions_range (n : Z) (x : item) (k : nat) (h : Z) :
  1 <= n -> positions n x !! k = Some h -> (k < 3)%nat /\ 0 <= h < n.
Proof.
  intros Hn Hk.
  destruct (positions_three n x Hn) as (h1 & h2 & h3 & Hpos & H1 & H2 & H3).
  rewrite Hpos in Hk.
  destruct k as [|[|[|k]]]; try discriminate; injection Hk as <-;
    (split; [lia|assumption]).
Qed.

Lemma add_cell_wf (x : item) (f : BloomFilter) (i j : nat) :
  well_formed f ->
  cell (fst (add x f)) i j
  = if decide (positions (size f) x !! i = Some (Z.of_nat j))
    then Some 1 else cell f i j.
Proof.
  intros Hwf.
  destruct (well_formed_rows f Hwf) as (r0 & r1 & r2 & Hrows & L0 & L1 & L2).
  pose proof Hwf as (Hn & _).
  destruct (positions_three (size f) x Hn) as (h1 & h2 & h3 & Hpos & H1 & H2 & H3).
  rewrite (add_rows x f r0 r1 r2 h1 h2 h3 Hwf Hrows Hpos), Hpos.
  unfold cell. cbn [fst bit_arrays]. rewrite Hrows.
  destruct i as [|[|[|i]]]; cbn [lookup list_lookup];
    try (rewrite decide_False by discriminate; reflexivity);
    (destruct (decide _) as [E|Hne];
     [ injection E as ->; rewrite Nat2Z.id; apply list_lookup_insert_eq; lia
     | apply list_lookup_insert_ne; intros <-; apply Hne; f_equal; lia ]).
Qed.

Lemma run_cell (ys : list item) (f : BloomFilter) (i j : nat) :
  well_formed f ->
  cell (fst (add_all ys f)) i j
  = if decide (Exists (fun y => positions (size f) y !! i = Some (Z.of_nat j)) ys)
    then Some 1 else cell f i j.
Proof.
  revert f. induction ys as [|y ys IH]; intros f Hwf.
  - cbn [add_all ret fst]. rewrite decide_False; [reflexivity|].
    intros H. inversion H.
  - destruct (add_returns y f Hwf) as (f1 & Ha & Hwf1).
    pose proof (add_grows y f) as (Hsz & _). rewrite Ha in Hsz. cbn [fst] in Hsz.
    pose proof (add_cell_wf y f i j Hwf) as Hc. rewrite Ha in Hc. cbn [fst] in Hc.
    cbn [add_all]. rewrite (bind_ok _ _ _ _ _ Ha), (IH f1 Hwf1), Hsz, Hc.
    destruct (decide (Exists _ ys)) as [He|Hne].
    + rewrite decide_True by (apply Exists_cons; right; exact He). reflexivity.
    + destruct (decide (positions (size f) y !! i = Some (Z.of_nat j)))
        as [Hy|Hny].
      * rewrite decide_True by (apply Exists_cons; left; exact Hy). reflexivity.
      * rewrite decide_False; [reflexivity|].
        intros [H|H]%Exists_cons; contradiction.
Qed.

Lemma fresh_cell (n : Z) (i j : nat) (v : Z) :
  cell (fresh n) i j = Some v -> v = 0.
Proof.
  unfold cell, fresh. cbn [bit_arrays].
  destruct (replicate 3 _ !! i) as [row|] eqn:Er; [|discriminate].
  apply lookup_replicate_1 in Er as [-> _].
  intros Hv. apply lookup_replicate_1 in Hv as [-> _]. reflexivity.
Qed.

(** X5 - What a filter answers after a run of insertions. On a filter
    built with a size [n >= 1] and then given the items [ys], [check x]
    returns a boolean, and it is [True] exactly when each of the three hash
    positions of [x] is the hash position, for the same array, of some item
    of [ys]. The answer thus depends on neither the order nor the
    repetitions of the insertions, and a false positive is a collision in
    each of the three arrays. *)
Theorem check_after_run (n : Z) (ys : list item) (x : item) :
  1 <= n ->
  exists b,
    check x (fst (add_all ys (fresh n))) = (fst (add_all ys (fresh n)), Ok b)
    /\ (b = true <->
        forall k h, positions n x !! k = Some h ->
          Exists (fun y => positions n y !! k = Some h) ys).
Proof.
  intros Hn. pose proof (init_well_formed n Hn) as Hwf0. fold (fresh n) in Hwf0.
  destruct (add_all_returns ys (fresh n) Hwf0) as (f & Hrun & Hwf).
  rewrite Hrun. cbn [fst].
  pose proof (add_all_grows ys (fresh n)) as (Hsz & _).
  rewrite Hrun in Hsz. cbn [fst fresh size] in Hsz.
  destruct (check_wf x f Hwf) as (b & Hb & Hiff). exists b.
  split; [exact Hb|]. rewrite Hiff, Hsz. clear Hiff.
  assert (forall k h, positions n x !! k = Some h ->
            ((exists v, cell f k (Z.to_nat h) = Some v /\ v <> 0)
             <-> Exists (fun y => positions n y !! k = Some h) ys)) as Hkey.
  { intros k h Hk. destruct (positions_range n x k h Hn Hk) as (_ & Hh).
    pose proof (run_cell ys (fresh n) k (Z.to_nat h) Hwf0) as Hc.
    rewrite Hrun in Hc. cbn [fst fresh size] in Hc.
    rewrite Z2Nat.id in Hc by lia. rewrite Hc.
    destruct (decide _) as [He|Hne].
    - split; [intros _; exact He|]. intros _. exists 1.
      split; [reflexivity|discriminate].
    - split; [|contradiction]. intros (v & Hv & Hnz).
      apply fresh_cell in Hv. contradiction. }
  split; intros H k h Hk; apply (Hkey k h Hk); apply H; exact Hk.
Qed.

Lemma check_after_run_witness :
  1 <= 50
  /\ exists b,
       check (PyStr "microsoft")
             (fst (add_all [PyStr "google"; PyStr "openai"] (fresh 50)))
       = (fst (add_all [PyStr "google"; PyStr "openai"] (fresh 50)), Ok b)
       /\ (b = true <->
           forall k h, positions 50 (PyStr "microsoft") !! k = Some h ->
             Exists (fun y => positions 50 y !! k = Some h)
                    [PyStr "google"; PyStr "openai"]).
Proof.
  split; [lia|].
  apply (check_after_run 50 [PyStr "google"; PyStr "openai"] (PyStr "microsoft")).
  lia.
Defined.

(** X6 - The state after a run depends only on which items were inserted.
    On a filter with three arrays of [size >= 1] cells, two runs of
    insertions that hold the same items, in whatever order and however often
    repeated, leave the same state. *)
Theorem run_depends_on_item_set (f : BloomFilter) (ys zs : list item) :
  well_formed f ->
  (forall y, y ∈ ys <-> y ∈ zs) ->
  fst (add_all ys f) = fst (add_all zs f).
Proof.
  intros Hwf Hsame.
  pose proof (add_all_grows ys f) as (Sy & Hy & _).
  pose proof (add_all_grows zs f) as (Sz & Hz & _).
  apply filter_ext; [congruence|congruence|].
  intros i j. rewrite !run_cell by exact Hwf.
  apply decide_ext. rewrite !Exists_exists.
  split; intros (y & Hin & Hp); exists y; (split; [apply Hsame; exact Hin|exact Hp]).
Qed.

Lemma run_depends_on_item_set_witness :
  well_formed bf
  /\ (forall y, y ∈ [PyStr "google"; PyStr "openai"; PyStr "google"]
                <-> y ∈ [PyStr "openai"; PyStr "google"])
  /\ fst (add_all [PyStr "google"; PyStr "openai"; PyStr "google"] bf)
     = fst (add_all [PyStr "openai"; PyStr "google"] bf).
Proof.
  assert (well_formed bf) as Hwf by (apply (init_well_formed 50); lia).
  assert (forall y, y ∈ [PyStr "google"; PyStr "openai"; PyStr "google"]
                    <-> y ∈ [PyStr "openai"; PyStr "google"]) as Hsame.
  { intros y. rewrite !elem_of_cons, !elem_of_nil. tauto. }
  split; [exact Hwf|]. split; [exact Hsame|].
  exact (run_depends_on_item_set bf _ _ Hwf Hsame).
Defined.

(** ** Cells hold 0 or 1 *)

Lemma grows_binary (f g : BloomFilter) : grows f g -> binary f -> binary g.
Proof.
  intros (_ & _ & Hc) Hb i j v Hv.
  destruct (Hc i j) as [E|E]; rewrite E in Hv.
  - eapply Hb. exact Hv.
  - injection Hv as <-. right. reflexivity.
Qed.

Lemma fresh_binary (n : Z) : binary (fresh n).
Proof. intros i j v Hv. left. eapply fresh_cell. exact Hv. Qed.

(** X7 - Bits stay bits. Whatever the size given to the constructor, after
    any run of insertions, however it ends, every cell of every bit array
    holds 0 or 1. *)
Theorem cells_are_bits (s : option Z) (f : BloomFilter) (ys : list item) :
  __init__ s = Ok f -> binary (fst (add_all ys f)).
Proof.
  rewrite fresh_init. intros [= <-].
  eapply grows_binary; [apply add_all_grows|apply fresh_binary].
Qed.

Lemma cells_are_bits_witness :
  __init__ (Some 50) = Ok bf
  /\ binary (fst (add_all [PyStr "google"; PyStr "openai"] bf)).
Proof.
  assert (__init__ (Some 50) = Ok bf) as H by reflexivity.
  split; [exact H|].
  exact (cells_are_bits (Some 50) bf [PyStr "google"; PyStr "openai"] H).
Defined.

(** ** A negative size *)

Lemma hashes_negative (x : item) (f : BloomFilter) :
  size f < 0 ->
  exists h1 h2 h3,
    _hashes x f = (f, Ok [h1; h2; h3])
    /\ size f < h1 <= 0 /\ size f < h2 <= 0 /\ size f < h3 <= 0.
Proof.
  intros Hn. rewrite hashes_nonzero by lia.
  destruct (hash_ints_three x) as (d1 & d2 & d3 & -> & _).
  do 3 eexists. split; [reflexivity|].
  repeat split; apply Z.mod_neg_bound; lia.
Qed.

(** X8 - The hash positions for a negative size. When [size] is negative,
    [_hashes] still returns three indices, but each lies in
    [size+1 .. 0]: none is positive, and they are not within
    [0 .. size-1]. *)
Theorem hashes_negative_size (x : item) (f : BloomFilter) :
  size f < 0 ->
  exists h1 h2 h3,
    _hashes x f = (f, Ok [h1; h2; h3])
    /\ size f < h1 <= 0 /\ size f < h2 <= 0 /\ size f < h3 <= 0.
Proof. exact (hashes_negative x f). Qed.

Lemma hashes_negative_size_witness :
  size (fresh (-5)) < 0
  /\ exists h1 h2 h3,
       _hashes (PyStr "google") (fresh (-5)) = (fresh (-5), Ok [h1; h2; h3])
       /\ size (fresh (-5)) < h1 <= 0
       /\ size (fresh (-5)) < h2 <= 0
       /\ size (fresh (-5)) < h3 <= 0.
Proof.
  assert (size (fresh (-5)) < 0) as Hn by (cbn; lia).
  split; [exact Hn|].
  exact (hashes_negative_size (PyStr "google") (fresh (-5)) Hn).
Defined.





(** ** Size 1: everything collides *)

Lemma positions_one (x : item) : positions 1 x = [0; 0; 0].
Proof.
  unfold positions. destruct (hash_ints_three x) as (d1 & d2 & d3 & -> & _).
  cbn [map]. rewrite !Z.mod_1_r. reflexivity.
Qed.

(** X10 - A filter of size 1 cannot tell items apart. Once any item has
    been inserted into a filter built with size 1, whatever is inserted
    after it, [check] returns [True] for every item. *)
Theorem size_one_accepts_everything (x y : item) (ys : list item) :
  check y (fst (add_all (x :: ys) (fresh 1)))
  = (fst (add_all (x :: ys) (fresh 1)), Ok true).
Proof.
  pose proof (init_well_formed 1 ltac:(lia)) as Hwf0. fold (fresh 1) in Hwf0.
  destruct (add_all_returns (x :: ys) (fresh 1) Hwf0) as (f & Hrun & Hwf).
  pose proof (add_all_grows (x :: ys) (fresh 1)) as (Hsz & _).
  pose proof (fun k j => run_cell (x :: ys) (fresh 1) k j Hwf0) as Hc.
  rewrite Hrun in Hsz, Hc |- *. cbn [fst fresh size] in Hsz, Hc |- *.
  destruct (check_wf y f Hwf) as (b & Hb & Hiff).
  rewrite Hb. do 2 f_equal. apply Hiff. rewrite Hsz, positions_one.
  intros k h Hk. exists 1. split; [|discriminate].
  rewrite Hc, decide_True; [reflexivity|].
  apply Exists_cons. left. rewrite positions_one.
  destruct k as [|[|[|k]]]; try discriminate; injection Hk as <-; reflexivity.
Qed.

(** ** [False] means never inserted *)

Lemma check_same_str (a b : item) (f : BloomFilter) :
  Py.str a = Py.str b -> check a f = check b f.
Proof.
  intros E. unfold check, bind.
  replace (_hashes a f) with (_hashes b f)
    by (unfold _hashes; rewrite E; reflexivity).
  reflexivity.
Qed.

(** X11 - [False] is a definite answer. On a filter built with a size of
    at least 1 and then given the items [ys], if [check x] returns [False]
    then no item of [ys] has the string form of [x]; in particular [x] is
    not among them. *)
Theorem check_false_means_absent (n : Z) (ys : list item) (x : item) :
  1 <= n ->
  snd (check x (fst (add_all ys (fresh n)))) = Ok false ->
  Forall (fun y => Py.str y <> Py.str x) ys.
Proof.
  intros Hn Hfalse. apply Forall_forall. intros y Hin Hstr.
  apply list_elem_of_split in Hin as (before & after & ->).
  destruct (inserted_is_found n before after y Hn) as (f & Hrun & Hy).
  fold (fresh n) in Hrun. rewrite Hrun in Hfalse. cbn [fst] in Hfalse.
  rewrite <- (check_same_str y x f Hstr), Hy in Hfalse. discriminate.
Qed.

Lemma check_false_means_absent_witness :
  1 <= 50
  /\ snd (check (PyStr "microsoft")
                (fst (add_all [PyStr "google"; PyStr "openai"] (fresh 50))))
     = Ok false
  /\ Forall (fun y => Py.str y <> Py.str (PyStr "microsoft"))
            [PyStr "google"; PyStr "openai"].
Proof.
  assert (snd (check (PyStr "microsoft")
                 (fst (add_all [PyStr "google"; PyStr "openai"] (fresh 50))))
          = Ok false) as H by (vm_compute; reflexivity).
  split; [lia|]. split; [exact H|].
  exact (check_false_means_absent 50 _ (PyStr "microsoft") ltac:(lia) H).
Defined.

(** ** How many bits a run can set *)

Lemma ones_insert (row : list Z) (j : nat) :
  (ones (<[j:=1%Z]> row) <= S (ones row))%nat.
Proof.
  unfold ones. revert j. induction row as [|v row IH]; intros j.
  - destruct j; cbn; lia.
  - destruct j as [|j]; cbn [insert list_insert List.filter].
    + change (1 =? 1) with true. destruct (v =? 1); cbn [length]; lia.
    + specialize (IH j).
      destruct (v =? 1); simpl length; [apply le_n_S|]; exact IH.
Qed.

Lemma ones_replicate_zero (m : nat) : ones (replicate m 0) = 0%nat.
Proof. unfold ones. induction m as [|m IH]; [reflexivity|exact IH]. Qed.

Lemma add_ones (x : item) (f : BloomFilter) (m : nat) :
  well_formed f ->
  Forall (fun row => (ones row <= m)%nat) (bit_arrays f) ->
  Forall (fun row => (ones row <= S m)%nat) (bit_arrays (fst (add x f))).
Proof.
  intros Hwf Hall.
  destruct (well_formed_rows f Hwf) as (r0 & r1 & r2 & Hrows & _).
  pose proof Hwf as (Hn & _).
  destruct (positions_three (size f) x Hn) as (h1 & h2 & h3 & Hpos & _).
  rewrite (add_rows x f r0 r1 r2 h1 h2 h3 Hwf Hrows Hpos).
  cbn [fst bit_arrays]. rewrite Hrows in Hall.
  apply Forall_cons in Hall as [H0 Hall].
  apply Forall_cons in Hall as [H1 Hall].
  apply Forall_cons in Hall as [H2 _].
  repeat (apply Forall_cons; split); [| | |constructor];
    (eapply Nat.le_trans; [apply ones_insert|lia]).
Qed.

Lemma run_ones (ys : list item) (f : BloomFilter) (m : nat) :
  well_formed f ->
  Forall (fun row => (ones row <= m)%nat) (bit_arrays f) ->
  Forall (fun row => (ones row <= m + length ys)%nat)
         (bit_arrays (fst (add_all ys f))).
Proof.
  revert f m. induction ys as [|y ys IH]; intros f m Hwf Hall.
  - cbn [add_all ret fst length]. rewrite Nat.add_0_r. exact Hall.
  - destruct (add_returns y f Hwf) as (f1 & Ha & Hwf1).
    pose proof (add_ones y f m Hwf Hall) as H1. rewrite Ha in H1. cbn [fst] in H1.
    cbn [add_all length]. rewrite (bind_ok _ _ _ _ _ Ha).
    replace (m + S (length ys))%nat with (S m + length ys)%nat by lia.
    apply IH; assumption.
Qed.

(** X12 - An insertion sets at most one bit per array. On a filter built
    with a size of at least 1, after a run of insertions, none of the three
    bit arrays holds more ones than there were insertions. *)
Theorem ones_bounded_by_insertions (n : Z) (ys : list item) :
  1 <= n ->
  Forall (fun row => (ones row <= length ys)%nat)
         (bit_arrays (fst (add_all ys (fresh n)))).
Proof.
  intros Hn. pose proof (init_well_formed n Hn) as Hwf0. fold (fresh n) in Hwf0.
  apply (run_ones ys (fresh n) 0 Hwf0).
  unfold fresh. cbn [bit_arrays replicate].
  repeat constructor; rewrite ones_replicate_zero; lia.
Qed.

Lemma ones_bounded_by_insertions_witness :
  1 <= 50
  /\ Forall (fun row => (ones row <= 2)%nat)
            (bit_arrays (fst (add_all [PyStr "google"; PyStr "openai"] (fresh 50)))).
Proof.
  split; [lia|].
  apply (ones_bounded_by_insertions 50 [PyStr "google"; PyStr "openai"]). lia.
Defined.

(** X13 - The run at the end of the file. Building a filter of size 50,
    inserting "google" and "openai", and checking "google", "openai" and
    "microsoft" prints [True], [True] and [False], as the comments beside
    the three [print] calls say: at this size "microsoft" is no false
    positive. *)
Theorem script_output : script = Ok [true; true; false].
Proof. vm_compute. reflexivity. Qed.
